(** * Skill selection and dispatch notebooks: a shallow embedding

    The repository is a set of Jupyter notebooks (Python).  Each notebook
    is embedded as a Rocq module whose definitions follow the notebook's
    cells: module-level globals become fields of a record, statements that
    mutate them or that raise become computations in a state-and-exception
    monad, and the external collaborators (the embedding model, the chat
    model, the tools' network calls) are function arguments.

    Numbers: the notebooks store embeddings as float32 arrays.  They are
    modelled here as real numbers, i.e. rounding is idealised away; every
    statement below about norms and distances is a statement about that
    idealisation. *)

From Stdlib Require Import Reals Lra ZArith List String Ascii Sorted.
From stdpp Require Import gmap strings list pretty.

Set Warnings "-register-all".

Local Open Scope string_scope.
Local Open Scope Z_scope.
Local Open Scope list_scope.

(** ** Python runtime: exceptions, results, the notebook monad *)

Module Py.

(** The exception classes the notebooks can raise. *)
Inductive pyexn : Type :=
  | AssertionError
  | IndexError
  | KeyError (key : string)
  | ValueError (msg : string)
  | JSONDecodeError
  | AttributeError (msg : string)
  | TypeError (msg : string)
  | ValidationError.

Definition class_name (e : pyexn) : string :=
  match e with
  | AssertionError => "AssertionError"
  | IndexError => "IndexError"
  | KeyError _ => "KeyError"
  | ValueError _ => "ValueError"
  | JSONDecodeError => "JSONDecodeError"
  | AttributeError _ => "AttributeError"
  | TypeError _ => "TypeError"
  | ValidationError => "ValidationError"
  end.

(** [except ValueError]: json.JSONDecodeError is a subclass of ValueError. *)
Definition isinstance_ValueError (e : pyexn) : bool :=
  match e with
  | ValueError _ | JSONDecodeError => true
  | _ => false
  end.

Inductive outcome (A : Type) : Type :=
  | Ok (a : A)
  | Raise (e : pyexn).
Arguments Ok {A} a.
Arguments Raise {A} e.

#[export] Instance outcome_ret : MRet outcome := fun _ a => Ok a.
#[export] Instance outcome_bind : MBind outcome := fun _ _ f m =>
  match m with
  | Ok a => f a
  | Raise e => Raise e
  end.

(** A statement sequence over mutable state [S]: the state reached is kept
    when an exception propagates, as in Python. *)
Definition M (S A : Type) : Type := S -> outcome A * S.

#[export] Instance M_ret {S} : MRet (M S) := fun _ a s => (Ok a, s).
#[export] Instance M_bind {S} : MBind (M S) := fun _ _ f m s =>
  match m s with
  | (Ok a, s') => f a s'
  | (Raise e, s') => (Raise e, s')
  end.

Definition raise {S A} (e : pyexn) : M S A := fun s => (Raise e, s).
Definition lift {S A} (o : outcome A) : M S A := fun s => (o, s).
Definition get {S} : M S S := fun s => (Ok s, s).
Definition modify {S} (f : S -> S) : M S unit := fun s => (Ok tt, f s).
Definition assert {S} (b : bool) : M S unit :=
  if b then mret tt else raise AssertionError.

(** [try: body except ValueError as e: handler(e)] *)
Definition try_except_ValueError {S A} (body : M S A) (handler : pyexn -> M S A)
  : M S A := fun s =>
  match body s with
  | (Ok a, s') => (Ok a, s')
  | (Raise e, s') =>
      if isinstance_ValueError e then handler e s' else (Raise e, s')
  end.

(** [for x in xs: body(x)] *)
Fixpoint for_each {S A} (xs : list A) (body : A -> M S unit) : M S unit :=
  match xs with
  | [] => mret tt
  | x :: rest => body x ;; for_each rest body
  end.

(** [[f(x) for x in xs]] where [f] may raise. *)
Fixpoint comprehension {A B} (f : A -> outcome B) (xs : list A)
  : outcome (list B) :=
  match xs with
  | [] => Ok []
  | x :: rest =>
      match f x with
      | Ok b =>
          match comprehension f rest with
          | Ok bs => Ok (b :: bs)
          | Raise e => Raise e
          end
      | Raise e => Raise e
      end
  end.

(** [l[i]] on a Python list: negative indices count from the end. *)
Definition py_index {A} (l : list A) (i : Z) : outcome A :=
  let n := Z.of_nat (length l) in
  let j := if i <? 0 then i + n else i in
  if (0 <=? j) && (j <? n) then
    match l !! Z.to_nat j with
    | Some a => Ok a
    | None => Raise IndexError
    end
  else Raise IndexError.

(** [str.lower()]: strings are byte strings here, and only the ASCII
    letters have a lower case. *)
Definition lower_ascii (c : ascii) : ascii :=
  let n := nat_of_ascii c in
  if ((65 <=? n) && (n <=? 90))%nat then ascii_of_nat (n + 32) else c.

Fixpoint lower (s : string) : string :=
  match s with
  | EmptyString => EmptyString
  | String c rest => String (lower_ascii c) (lower rest)
  end.

(** [str.strip()] and [str.split('\n')[0]]. *)
Definition is_space (c : ascii) : bool :=
  let n := nat_of_ascii c in
  ((n =? 32) || ((9 <=? n) && (n <=? 13)) || ((28 <=? n) && (n <=? 31)))%nat.

Fixpoint lstrip (s : string) : string :=
  match s with
  | EmptyString => EmptyString
  | String c rest => if is_space c then lstrip rest else s
  end.

Fixpoint rstrip (s : string) : string :=
  match s with
  | EmptyString => EmptyString
  | String c rest =>
      match rstrip rest with
      | EmptyString => if is_space c then EmptyString else String c EmptyString
      | r => String c r
      end
  end.

Definition strip (s : string) : string := rstrip (lstrip s).

Fixpoint first_line (s : string) : string :=
  match s with
  | EmptyString => EmptyString
  | String c rest =>
      if (nat_of_ascii c =? 10)%nat then EmptyString
      else String c (first_line rest)
  end.

(** Python values that cross the notebooks' interfaces: what [json.loads]
    returns, tool arguments, defaults. A [dict] keeps its items in
    insertion order. *)
Inductive pyval : Type :=
  | PNone
  | PBool (b : bool)
  | PInt (z : Z)
  | PFloat (r : R)
  | PStr (s : string)
  | PList (l : list pyval)
  | PDict (items : list (string * pyval)).

(** [d[k]] and [d[k] = v] on the items of a dict, whose keys are
    distinct: an assignment to a key already there keeps its position. *)
Fixpoint dict_lookup (k : string) (items : list (string * pyval))
  : option pyval :=
  match items with
  | [] => None
  | (k', v) :: rest => if String.eqb k k' then Some v else dict_lookup k rest
  end.

Fixpoint dict_set (k : string) (v : pyval) (items : list (string * pyval))
  : list (string * pyval) :=
  match items with
  | [] => [(k, v)]
  | (k', v') :: rest =>
      if String.eqb k k' then (k, v) :: rest else (k', v') :: dict_set k v rest
  end.

(** [obj.get(k, default)]: only a dict has the method. *)
Definition dict_get (obj : pyval) (k : string) (dflt : pyval)
  : outcome pyval :=
  match obj with
  | PDict items => Ok (default dflt (dict_lookup k items))
  | _ => Raise (AttributeError "object has no attribute 'get'")
  end.

(** [obj[k]] with a string key. *)
Definition dict_getitem (obj : pyval) (k : string) : outcome pyval :=
  match obj with
  | PDict items =>
      match dict_lookup k items with
      | Some v => Ok v
      | None => Raise (KeyError k)
      end
  | _ => Raise (TypeError "object is not subscriptable by a string")
  end.

(** Truthiness of a string-or-None, as in [if tool_name:]. *)
Definition truthy_name (o : option string) : bool :=
  match o with
  | Some (String _ _) => true
  | _ => false
  end.

End Py.
Export Py.

(** ** numpy arrays and the faiss flat index

    [faiss] and [numpy] are libraries the notebooks import; the model
    covers the calls the notebooks make, with the behaviour the libraries
    document: [normalize_L2] rescales each row of its argument in place,
    [IndexFlatL2.add] copies the rows into the index, and
    [IndexFlatL2.search] returns for each query row exactly [k] labels in
    order of increasing squared distance, filling with label [-1] when the
    index holds fewer than [k] vectors. *)

Module Faiss.

Definition vec : Type := list R.
Definition matrix : Type := list vec.

Definition fvec_norm_L2sqr (v : vec) : R :=
  foldr (fun x acc => x * x + acc)%R 0%R v.

Definition norm_L2 (v : vec) : R := sqrt (fvec_norm_L2sqr v).

(** One row of [fvec_renorm_L2]: a row of norm zero is left as it is. *)
Definition fvec_renorm_L2 (v : vec) : vec :=
  let nr := fvec_norm_L2sqr v in
  if Rlt_dec 0 nr then map (fun x => x * (1 / sqrt nr))%R v else v.

Definition fvec_L2sqr (x y : vec) : R :=
  fvec_norm_L2sqr (zip_with Rminus x y).

(** Ranking of the stored vectors for one query: by squared distance, and
    by position among equal distances. *)
Fixpoint insert_hit (h : nat * R) (l : list (nat * R)) : list (nat * R) :=
  match l with
  | [] => [h]
  | h' :: t =>
      if Rle_dec (snd h) (snd h') then h :: l else h' :: insert_hit h t
  end.

Definition rank (xb : list vec) (q : vec) : list (nat * R) :=
  foldr insert_hit [] (imap (fun i v => (i, fvec_L2sqr q v)) xb).

Definition knn_hits (xb : list vec) (q : vec) (k : nat) : list (nat * R) :=
  take k (rank xb q).

Definition knn_labels (xb : list vec) (q : vec) (k : nat) : list Z :=
  let hits := knn_hits xb q k in
  map (fun h => Z.of_nat (fst h)) hits ++ replicate (k - length hits)%nat (-1).

Definition knn_distances (xb : list vec) (q : vec) (k : nat)
  : list (option R) :=
  let hits := knn_hits xb q k in
  map (fun h => Some (snd h)) hits ++ replicate (k - length hits)%nat None.

(** The order of a ranking: by non-decreasing squared distance. *)
Definition by_distance (a b : nat * R) : Prop := (a.2 <= b.2)%R.

Record IndexFlatL2 : Type := mkIndex { d : nat; xb : list vec }.

Definition ntotal (ix : IndexFlatL2) : nat := length (xb ix).

(** [x.shape[1]] of a two-dimensional array. *)
Definition shape1 (x : matrix) : nat :=
  match x with
  | [] => O
  | row :: _ => length row
  end.

(** [index.add(x)]: [assert d == self.d], then the rows are appended. *)
Definition add (ix : IndexFlatL2) (x : matrix) : outcome IndexFlatL2 :=
  if (shape1 x =? d ix)%nat then Ok (mkIndex (d ix) (xb ix ++ x))
  else Raise AssertionError.

(** [D, I = index.search(x, k)]: [assert d == self.d], [assert k > 0]. *)
Definition search (ix : IndexFlatL2) (x : matrix) (k : Z)
  : outcome (list (list (option R)) * list (list Z)) :=
  if negb (shape1 x =? d ix)%nat then Raise AssertionError
  else if negb (0 <? k) then Raise AssertionError
  else Ok (map (fun q => knn_distances (xb ix) q (Z.to_nat k)) x,
           map (fun q => knn_labels (xb ix) q (Z.to_nat k)) x).

End Faiss.
Export Faiss.

(** ** What a notebook kernel shares across cells besides its globals *)

Module Runtime.

(** [ndarrays] is the store of numpy arrays, addressed by position: two
    names for one array (a [reshape] view, a dict entry) hold the same
    reference.  [embed_calls] records each text sent to the embedding
    model, [invoked] each tool invocation, [stdout] each printed line. *)
Record runtime : Type := mkRuntime {
  ndarrays : list matrix;
  embed_calls : list string;
  invoked : list (string * pyval);
  stdout : list string
}.

Definition ref : Type := nat.

Definition empty_runtime : runtime := mkRuntime [] [] [] [].

Definition set_ndarrays (f : list matrix -> list matrix) (rt : runtime) :=
  mkRuntime (f (ndarrays rt)) (embed_calls rt) (invoked rt) (stdout rt).

(** [np.array(rows).astype('float32')]: a new array holding a copy. *)
Definition np_array (rows : matrix) : M runtime ref := fun rt =>
  (Ok (length (ndarrays rt)), set_ndarrays (fun h => h ++ [rows]) rt).

Definition np_read (r : ref) : M runtime matrix := fun rt =>
  (Ok (default [] (ndarrays rt !! r)), rt).

(** [faiss.normalize_L2(x)]: the array [x] refers to is overwritten. *)
Definition normalize_L2 (r : ref) : M runtime unit :=
  modify (set_ndarrays (alter (map fvec_renorm_L2) r)).

(** A call of the embedding model on [text]. *)
Definition embed_call (embed : string -> vec) (text : string)
  : M runtime vec := fun rt =>
  (Ok (embed text),
   mkRuntime (ndarrays rt) (embed_calls rt ++ [text]) (invoked rt) (stdout rt)).

Definition print (line : string) : M runtime unit := fun rt =>
  (Ok tt,
   mkRuntime (ndarrays rt) (embed_calls rt) (invoked rt) (stdout rt ++ [line])).

(** [tool.invoke(args)]: the call is recorded, then the tool's own
    behaviour decides the result. *)
Definition invoke_call (name : string) (args : pyval)
  (behaviour : pyval -> outcome string) : M runtime string := fun rt =>
  (behaviour args,
   mkRuntime (ndarrays rt) (embed_calls rt) (invoked rt ++ [(name, args)])
     (stdout rt)).

End Runtime.
Export Runtime.

(** Computations on the runtime, run inside a notebook whose state is its
    globals [G] together with the runtime. *)
Definition on_rt {G A} (c : M runtime A) : M (G * runtime) A := fun st =>
  let '(o, rt') := c st.2 in (o, (st.1, rt')).

Definition read_globals {G} : M (G * runtime) G := fun st => (Ok st.1, st).

(** [str(e)] for a caught exception. *)
Definition str_exn (e : pyexn) : string :=
  match e with
  | ValueError msg => msg
  | AttributeError msg => msg
  | TypeError msg => msg
  | ValidationError => "validation error"
  | KeyError key => "'" +:+ key +:+ "'"
  | JSONDecodeError => "Expecting value: line 1 column 1 (char 0)"
  | AssertionError | IndexError => EmptyString
  end.

(** ** sementic_skill_selection.ipynb: one flat index over all tools *)

Module Semantic.

(** Cell 4. *)
Definition tool_descriptions : list (string * string) :=
  [("query_wolfram_alpha",
    "Use Wolfram Alpha to compute mathematical expressions or retrieve information.");
   ("trigger_zapier_webhook",
    "Trigger a Zapier webhook to execute predefined automated workflows.");
   ("send_slack_message",
    "Send messages to specific Slack channels to communicate with team members.")].

(** The notebook's globals once cells 5 to 9 have run. *)
Record globals : Type := mkGlobals {
  tool_embeddings : list vec;
  tool_names : list string;
  index : IndexFlatL2;
  index_to_tool : gmap Z string
}.

Section Notebook.

(** [embeddings.embed_query] *)
Variable embed_query : string -> vec.
(** [llm(messages).content] for one human message with the given text *)
Variable llm : string -> string.
(** [json.loads] *)
Variable json_loads : string -> outcome pyval.
(** [globals()]: the tool objects bound by name, each with what its
    [invoke] does on an argument dict *)
Variable namespace : gmap string (pyval -> outcome string).

(** Cell 5: the loop over [tool_descriptions.items()]. *)
Fixpoint embed_descriptions (items : list (string * string))
  (acc : list vec * list string) : M runtime (list vec * list string) :=
  match items with
  | [] => mret acc
  | (tool_name, description) :: rest =>
      embedding ← embed_call embed_query description;
      embed_descriptions rest (acc.1 ++ [embedding], acc.2 ++ [tool_name])
  end.

(** Cells 5 to 9 in order. *)
Definition build (items : list (string * string)) : M runtime globals :=
  '(tool_embeddings, tool_names) ← embed_descriptions items ([], []);
  (* cell 6 *)
  first ← lift (py_index tool_embeddings 0);
  let dimension := length first in
  let index := mkIndex dimension [] in
  (* cell 7: the array handed to normalize_L2 is not bound to a name *)
  unnamed ← np_array tool_embeddings;
  normalize_L2 unnamed;;
  (* cell 8 *)
  tool_embeddings_np ← np_array tool_embeddings;
  x ← np_read tool_embeddings_np;
  index ← lift (add index x);
  (* cell 9 *)
  let index_to_tool : gmap Z string :=
    <[0 := "query_wolfram_alpha"]>
      (<[1 := "trigger_zapier_webhook"]>
         (<[2 := "send_slack_message"]> ∅)) in
  mret (mkGlobals tool_embeddings tool_names index index_to_tool).

(** Cell 10.  [[index_to_tool[idx] for idx in I[0] if idx in index_to_tool]]
    keeps, in order, the value of every label that is a key. *)
Definition select_tool (query : string) (top_k : Z)
  : M (globals * runtime) (list string) :=
  g ← read_globals;
  e ← on_rt (embed_call embed_query query);
  query_embedding ← on_rt (np_array [e]);
  on_rt (normalize_L2 query_embedding);;
  x ← on_rt (np_read query_embedding);
  '(D, I_) ← lift (search (index g) x top_k);
  I0 ← lift (py_index I_ 0);
  mret (omap (fun idx => index_to_tool g !! idx) I0).

Definition prompt (query tool_name : string) : string :=
  "Based on the user's query: '" +:+ query +:+
  "', what parameters should be used for the tool '" +:+ tool_name +:+ "'?".

(** Cell 11. *)
Definition determine_parameters (query tool_name : string)
  : outcome (list (string * pyval)) :=
  let response_content := llm (prompt query tool_name) in
  response_data ← json_loads response_content;
  let parameters : list (string * pyval) := [] in
  if String.eqb tool_name "query_wolfram_alpha" then
    expression ← dict_get response_data "expression" PNone;
    mret (dict_set "expression" expression parameters)
  else if String.eqb tool_name "trigger_zapier_webhook" then
    zap_id ← dict_get response_data "zap_id" (PStr "123456");
    let parameters := dict_set "zap_id" zap_id parameters in
    payload ← dict_get response_data "payload" (PDict [("data", PStr query)]);
    mret (dict_set "payload" payload parameters)
  else if String.eqb tool_name "send_slack_message" then
    channel ← dict_get response_data "channel" (PStr "#general");
    let parameters := dict_set "channel" channel parameters in
    message ← dict_get response_data "message" (PStr query);
    mret (dict_set "message" message parameters)
  else mret parameters.

(** Cell 12, the driver. *)
Definition main (user_query : string) : M (globals * runtime) unit :=
  selected_tools ← select_tool user_query 1;
  let tool_name := head selected_tools in
  if truthy_name tool_name then
    let tool_name := default EmptyString tool_name in
    args ← lift (determine_parameters user_query tool_name);
    try_except_ValueError
      (tool ← lift (match namespace !! tool_name with
                    | Some t => Ok t
                    | None => Raise (KeyError tool_name)
                    end);
       tool_result ← on_rt (invoke_call tool_name (PDict args) tool);
       on_rt (print ("Tool '" +:+ tool_name +:+ "' Result: " +:+ tool_result)))
      (fun e =>
         on_rt (print ("Error invoking tool '" +:+ tool_name +:+ "': "
                       +:+ str_exn e)))
  else on_rt (print "No tool was selected.").

End Notebook.

(** The parameter names of each tool's signature. *)
Definition parameter_schema (tool_name : string) : list string :=
  if String.eqb tool_name "query_wolfram_alpha" then ["expression"]
  else if String.eqb tool_name "trigger_zapier_webhook" then ["zap_id"; "payload"]
  else if String.eqb tool_name "send_slack_message" then ["channel"; "message"]
  else [].

End Semantic.

(** ** hierarchical_selection.ipynb: a group index, then one index per group *)

Module Hierarchical.

(** A tool object, as far as the notebook reads it: [__name__] and
    [__doc__]. *)
Record tool : Type := mkTool { name : string; doc : option string }.

(** [a == b] on tool objects: a tool is identified by its name. *)
Definition same_tool (a b : tool) : bool := String.eqb (name a) (name b).

Record group_info : Type := mkGroup { description : string; tools : list tool }.

(** An entry of [tool_indices]; ["embeddings"] refers to the array that
    was normalised and added. *)
Record tool_info : Type := mkToolInfo {
  index : IndexFlatL2;
  functions : list tool;
  embeddings : ref
}.

(** The notebook's globals once cells 4 to 11 have run. *)
Record globals : Type := mkGlobals {
  tool_groups : list (string * group_info);
  group_names : list string;
  group_embeddings : list vec;
  group_index : IndexFlatL2;
  tool_indices : gmap string tool_info
}.

(** Cells 5 to 7. *)
Definition query_wolfram_alpha : tool := mkTool "query_wolfram_alpha" None.

Definition trigger_zapier_webhook : tool :=
  mkTool "trigger_zapier_webhook" (Some "
    Trigger a Zapier webhook to execute a predefined Zap.
 
    Args:
        zap_id (str): The unique identifier for the Zap to be triggered.
        payload (dict): The data to send to the Zapier webhook.
 
    Returns:
        str: Confirmation message upon successful triggering of the Zap.
 
    Raises:
        ValueError: If the API request fails or returns an error.
    ").

Definition send_slack_message : tool :=
  mkTool "send_slack_message" (Some "
    Send a message to a specified Slack channel.
 
    Args:
        channel (str): The Slack channel ID or name where the message will be sent.
        message (str): The content of the message to send.
 
    Returns:
        str: Confirmation message upon successful sending of the Slack message.
 
    Raises:
        ValueError: If the API request fails or returns an error.
    ").

(** Cell 4, before any tool is assigned. *)
Definition tool_groups_cell4 : list (string * group_info) :=
  [("Computation",
    mkGroup "Tools related to mathematical computations and data analysis." []);
   ("Automation",
    mkGroup "Tools that automate workflows and integrate different services." []);
   ("Communication",
    mkGroup "Tools that facilitate communication and messaging." [])].

(** Cell 8: [tool_groups[group]["tools"].append(t)]. *)
Fixpoint append_tool (group : string) (t : tool)
  (groups : list (string * group_info)) : list (string * group_info) :=
  match groups with
  | [] => []
  | (g, info) :: rest =>
      if String.eqb g group
      then (g, mkGroup (description info) (tools info ++ [t])) :: rest
      else (g, info) :: append_tool group t rest
  end.

Definition tool_groups_cell8 : list (string * group_info) :=
  append_tool "Communication" send_slack_message
    (append_tool "Automation" trigger_zapier_webhook
       (append_tool "Computation" query_wolfram_alpha tool_groups_cell4)).

Section Notebook.

(** [embeddings.embed_text]; [embed_texts] is the same on each text of a
    batch *)
Variable embed_text : string -> vec.
(** What [t.invoke(args)] does *)
Variable tool_invoke : tool -> pyval -> outcome string.

(** Cell 9. *)
Fixpoint embed_groups (items : list (string * group_info))
  (acc : list string * list vec) : M runtime (list string * list vec) :=
  match items with
  | [] => mret acc
  | (group_name, group_info) :: rest =>
      e ← embed_call embed_text (description group_info);
      embed_groups rest (acc.1 ++ [group_name], acc.2 ++ [e])
  end.

(** Cell 10. *)
Definition build_group_index (group_embeddings : list vec)
  : M runtime IndexFlatL2 :=
  group_embeddings_np ← np_array group_embeddings;
  normalize_L2 group_embeddings_np;;
  x ← np_read group_embeddings_np;
  first ← lift (py_index x 0);
  let group_index := mkIndex (length first) [] in
  lift (add group_index x).

(** Cell 11, the inner loop: the first line of each tool's docstring. *)
Fixpoint describe_tools (tools : list tool) (acc : list string * list tool)
  : outcome (list string * list tool) :=
  match tools with
  | [] => Ok acc
  | tool_func :: rest =>
      match doc tool_func with
      | Some text =>
          let description := first_line (strip text) in
          describe_tools rest (acc.1 ++ [description], acc.2 ++ [tool_func])
      | None =>
          Raise (AttributeError "'NoneType' object has no attribute 'strip'")
      end
  end.

Fixpoint embed_texts (texts : list string) : M runtime (list vec) :=
  match texts with
  | [] => mret []
  | t :: rest =>
      e ← embed_call embed_text t;
      es ← embed_texts rest;
      mret (e :: es)
  end.

(** Cell 11, the outer loop. *)
Fixpoint build_tool_indices (items : list (string * group_info))
  (tool_indices : gmap string tool_info)
  : M runtime (gmap string tool_info) :=
  match items with
  | [] => mret tool_indices
  | (group_name, group_info) :: rest =>
      '(tool_descriptions, tool_functions) ←
        lift (describe_tools (tools group_info) ([], []));
      match tool_descriptions with
      | [] => build_tool_indices rest tool_indices
      | _ :: _ =>
          tool_embeddings ← embed_texts tool_descriptions;
          tool_embeddings_np ← np_array tool_embeddings;
          normalize_L2 tool_embeddings_np;;
          x ← np_read tool_embeddings_np;
          first ← lift (py_index x 0);
          let tool_index := mkIndex (length first) [] in
          tool_index ← lift (add tool_index x);
          build_tool_indices rest
            (<[group_name :=
                 mkToolInfo tool_index tool_functions tool_embeddings_np]>
               tool_indices)
      end
  end.

(** Cells 9 to 11 in order. *)
Definition build (tool_groups : list (string * group_info))
  : M runtime globals :=
  '(group_names, group_embeddings) ← embed_groups tool_groups ([], []);
  group_index ← build_group_index group_embeddings;
  tool_indices ← build_tool_indices tool_groups ∅;
  mret (mkGlobals tool_groups group_names group_embeddings group_index
          tool_indices).

(** Cell 12. *)
Definition select_group (query : string) (top_k : Z)
  : M (globals * runtime) (list string) :=
  g ← read_globals;
  e ← on_rt (embed_call embed_text query);
  query_embedding ← on_rt (np_array [e]);
  on_rt (normalize_L2 query_embedding);;
  x ← on_rt (np_read query_embedding);
  '(D, I_) ← lift (search (group_index g) x top_k);
  I0 ← lift (py_index I_ 0);
  lift (comprehension (py_index (group_names g)) I0).

(** Cell 13. *)
Definition select_tool (query group_name : string) (top_k : Z)
  : M (globals * runtime) (list tool) :=
  g ← read_globals;
  tool_info ← lift (match tool_indices g !! group_name with
                    | Some info => Ok info
                    | None => Raise (KeyError group_name)
                    end);
  e ← on_rt (embed_call embed_text query);
  query_embedding ← on_rt (np_array [e]);
  on_rt (normalize_L2 query_embedding);;
  x ← on_rt (np_read query_embedding);
  '(D, I_) ← lift (search (index tool_info) x top_k);
  I0 ← lift (py_index I_ 0);
  lift (comprehension (py_index (functions tool_info))
          (filter (fun idx => idx < Z.of_nat (length (functions tool_info)))
             I0)).

(** Cell 14: the argument dict the driver prepares for each known tool. *)
Definition prepare_args (selected_tool : tool) (user_query : string)
  : option (list (string * pyval)) :=
  if same_tool selected_tool query_wolfram_alpha then
    Some [("expression", PStr user_query)]
  else if same_tool selected_tool trigger_zapier_webhook then
    Some [("zap_id", PStr "123456");
          ("payload", PDict [("message", PStr user_query)])]
  else if same_tool selected_tool send_slack_message then
    Some [("channel", PStr "#general"); ("message", PStr user_query)]
  else None.

(** Cell 14, the driver: each [return] ends it. *)
Definition main (user_query : string) : M (globals * runtime) unit :=
  selected_groups ← select_group user_query 1;
  match selected_groups with
  | [] => on_rt (print "No relevant skill group found for your query.")
  | selected_group :: _ =>
      on_rt (print ("Selected Skill Group: " +:+ selected_group));;
      selected_tools ← select_tool user_query selected_group 1;
      match selected_tools with
      | [] => on_rt (print "No relevant tool found within the selected group.")
      | selected_tool :: _ =>
          on_rt (print ("Selected Tool: " +:+ name selected_tool));;
          match prepare_args selected_tool user_query with
          | None => on_rt (print "Selected tool is not recognized.")
          | Some args =>
              try_except_ValueError
                (tool_result ←
                   on_rt (invoke_call (name selected_tool) (PDict args)
                            (tool_invoke selected_tool));
                 on_rt (print ("Tool '" +:+ name selected_tool +:+
                               "' Result: " +:+ tool_result)))
                (fun e => on_rt (print ("Error: " +:+ str_exn e)))
          end
      end
  end.

End Notebook.

End Hierarchical.

(** ** Messages of the chat transcript (langchain_core.messages) *)

Module Langchain.

Record tool_call : Type := mkToolCall {
  name : string;
  args : pyval;
  id : string
}.

Inductive message : Type :=
  | HumanMessage (content : string)
  | AIMessage (content : string) (tool_calls : list tool_call)
  | ToolMessage (name content tool_call_id : string).

(** [messages.append(m)] on the notebook's transcript. *)
Definition append_message (m : message) : M (list message * runtime) unit :=
  modify (fun st => (st.1 ++ [m], st.2)).

End Langchain.

(** ** calc_skill.ipynb: tool calls issued by the model, resolved by name *)

Module Calc.
Import Langchain.

(** Cell 2: the three tools. *)
Inductive calc_tool : Type := multiply | exponentiate | add.

#[export] Instance calc_tool_eq_dec : EqDecision calc_tool.
Proof. solve_decision. Defined.

Definition tool_name (t : calc_tool) : string :=
  match t with
  | multiply => "multiply"
  | exponentiate => "exponentiate"
  | add => "add"
  end.

(** Cell 7: [{"add": add, "multiply": multiply, "exponentiate": exponentiate}] *)
Definition dispatch_table : gmap string calc_tool :=
  <["exponentiate" := exponentiate]>
    (<["multiply" := multiply]> (<["add" := add]> ∅)).

(** [table[tool_call["name"].lower()]] *)
Definition resolve (call_name : string) : outcome calc_tool :=
  match dispatch_table !! lower call_name with
  | Some t => Ok t
  | None => Raise (KeyError (lower call_name))
  end.

Section Notebook.

(** [llm_with_tools.invoke(messages)]: content and tool calls of the reply *)
Variable llm_with_tools : list message -> string * list tool_call.
(** content of the message [t.invoke(tool_call)] returns *)
Variable tool_invoke : calc_tool -> tool_call -> outcome string.
(** how [print] shows an argument dict *)
Variable repr : pyval -> string.

(** Cell 7, the loop body. *)
Definition dispatch_step (tc : tool_call) : M (list message * runtime) unit :=
  selected_tool ← lift (resolve (name tc));
  content ← on_rt (invoke_call (tool_name selected_tool) (args tc)
                     (fun _ => tool_invoke selected_tool tc));
  let tool_msg := ToolMessage (tool_name selected_tool) content (id tc) in
  on_rt (print (tool_name selected_tool +:+ " " +:+ repr (args tc) +:+ " "
                +:+ content));;
  append_message tool_msg.

(** Cells 4, 5, 7 and 8. *)
Definition main (query : string) : M (list message * runtime) unit :=
  modify (fun st => ([HumanMessage query], st.2));;
  st ← get;
  let ai_msg := llm_with_tools st.1 in
  append_message (AIMessage ai_msg.1 ai_msg.2);;
  for_each ai_msg.2 dispatch_step;;
  st ← get;
  let final_response := llm_with_tools st.1 in
  on_rt (print final_response.1).

End Notebook.

End Calc.

(** ** The stock-price notebook (unnamed/part_000): every tool call goes
    to one tool *)

Module Stock.
Import Langchain.

Section Notebook.

Variable llm_with_tools : list message -> string * list tool_call.
(** [requests.get(url)]: the status code and what [response.json()] gives *)
Variable requests_get : string -> Z * outcome pyval.
(** [str] of a returned value, and how [print] shows an argument dict *)
Variable repr : pyval -> string.

(** Cell 2. *)
Definition get_stock_price (ticker : string) : outcome pyval :=
  let api_url := "https://finance.yahoo.com/quote/" +:+ ticker in
  let response := requests_get api_url in
  if response.1 =? 200 then
    data ← response.2;
    dict_getitem data "price"
  else Raise (ValueError ("Failed to fetch stock price for " +:+ ticker)).

(** [get_stock_price.invoke(tool_call)]: the call's [ticker] argument
    must be a string; an exception of the body is not handled. *)
Definition invoke (tc : tool_call) : outcome string :=
  match args tc with
  | PDict items =>
      match dict_lookup "ticker" items with
      | Some (PStr ticker) =>
          price ← get_stock_price ticker;
          mret (repr price)
      | _ => Raise ValidationError
      end
  | _ => Raise ValidationError
  end.

(** Cell 5, the loop body. *)
Definition dispatch_step (tc : tool_call) : M (list message * runtime) unit :=
  content ← on_rt (invoke_call "get_stock_price" (args tc) (fun _ => invoke tc));
  let tool_msg := ToolMessage "get_stock_price" content (id tc) in
  on_rt (print "get_stock_price");;
  on_rt (print (repr (args tc)));;
  on_rt (print content);;
  append_message tool_msg;;
  on_rt (print EmptyString).

(** Cells 4 and 5. *)
Definition main (question : string) : M (list message * runtime) unit :=
  modify (fun st => ([HumanMessage question], st.2));;
  st ← get;
  let ai_msg := llm_with_tools st.1 in
  append_message (AIMessage ai_msg.1 ai_msg.2);;
  for_each ai_msg.2 dispatch_step;;
  st ← get;
  let final_response := llm_with_tools st.1 in
  on_rt (print final_response.1).

End Notebook.

End Stock.

(** ** A decoder for a fragment of JSON

    [json.loads] is a parameter of the notebook model.  To run the model
    on concrete replies, [loads] below decodes the fragment of JSON made of
    objects, arrays, strings without escapes, integers, [true], [false]
    and [null]; on any other text it reports a decode error.  A key
    repeated in an object keeps its last value, as in Python. *)

Module Json.

Definition is_ws (c : ascii) : bool :=
  let n := nat_of_ascii c in
  ((n =? 32) || (n =? 9) || (n =? 10) || (n =? 13))%nat.

Fixpoint skip_ws (l : list ascii) : list ascii :=
  match l with
  | c :: rest => if is_ws c then skip_ws rest else l
  | [] => []
  end.

Definition is_digit (c : ascii) : bool :=
  let n := nat_of_ascii c in ((48 <=? n) && (n <=? 57))%nat.

Definition digit_value (c : ascii) : Z := Z.of_nat (nat_of_ascii c) - 48.

(** The characters of a string up to its closing quote. *)
Fixpoint scan_string (l : list ascii) (acc : list ascii)
  : option (string * list ascii) :=
  match l with
  | [] => None
  | c :: rest =>
      let n := nat_of_ascii c in
      if (n =? 34)%nat then Some (string_of_list_ascii (rev acc), rest)
      else if ((n =? 92) || (n <? 32))%nat then None
      else scan_string rest (c :: acc)
  end.

Fixpoint scan_digits (l : list ascii) (acc : Z) : Z * list ascii :=
  match l with
  | c :: rest =>
      if is_digit c then scan_digits rest (10 * acc + digit_value c)
      else (acc, l)
  | [] => (acc, [])
  end.

(** An integer without sign; a fraction or an exponent is outside the
    fragment, a leading zero is not JSON. *)
Definition scan_nat (l : list ascii) : option (Z * list ascii) :=
  match l with
  | c :: rest =>
      if negb (is_digit c) then None
      else
        let '(z, rest') :=
          if (nat_of_ascii c =? 48)%nat then (0, rest) else scan_digits l 0 in
        match rest' with
        | c' :: _ =>
            let n := nat_of_ascii c' in
            if (is_digit c' || (n =? 46) || (n =? 101) || (n =? 69))%nat
            then None else Some (z, rest')
        | [] => Some (z, rest')
        end
  | [] => None
  end.

Fixpoint parse_value (fuel : nat) (l : list ascii)
  : option (pyval * list ascii) :=
  match fuel with
  | O => None
  | S fuel =>
      match skip_ws l with
      | "n" :: "u" :: "l" :: "l" :: rest => Some (PNone, rest)
      | "t" :: "r" :: "u" :: "e" :: rest => Some (PBool true, rest)
      | "f" :: "a" :: "l" :: "s" :: "e" :: rest => Some (PBool false, rest)
      (* the double-quote character *)
      | Ascii false true false false false true false false :: rest =>
          match scan_string rest [] with
          | Some (s, rest') => Some (PStr s, rest')
          | None => None
          end
      | "-" :: rest =>
          match scan_nat rest with
          | Some (z, rest') => Some (PInt (- z), rest')
          | None => None
          end
      | "[" :: rest =>
          match skip_ws rest with
          | "]" :: rest' => Some (PList [], rest')
          | _ => parse_elements fuel rest []
          end
      | "{" :: rest =>
          match skip_ws rest with
          | "}" :: rest' => Some (PDict [], rest')
          | _ => parse_members fuel rest []
          end
      | rest =>
          match scan_nat rest with
          | Some (z, rest') => Some (PInt z, rest')
          | None => None
          end
      end
  end%char
with parse_elements (fuel : nat) (l : list ascii) (acc : list pyval)
  : option (pyval * list ascii) :=
  match fuel with
  | O => None
  | S fuel =>
      match parse_value fuel l with
      | Some (v, rest) =>
          match skip_ws rest with
          | "," :: rest' => parse_elements fuel rest' (acc ++ [v])
          | "]" :: rest' => Some (PList (acc ++ [v]), rest')
          | _ => None
          end
      | None => None
      end
  end%char
with parse_members (fuel : nat) (l : list ascii) (acc : list (string * pyval))
  : option (pyval * list ascii) :=
  match fuel with
  | O => None
  | S fuel =>
      match skip_ws l with
      | Ascii false true false false false true false false :: rest =>
          match scan_string rest [] with
          | Some (k, rest1) =>
              match skip_ws rest1 with
              | ":" :: rest2 =>
                  match parse_value fuel rest2 with
                  | Some (v, rest3) =>
                      match skip_ws rest3 with
                      | "," :: rest4 => parse_members fuel rest4 (dict_set k v acc)
                      | "}" :: rest4 => Some (PDict (dict_set k v acc), rest4)
                      | _ => None
                      end
                  | None => None
                  end
              | _ => None
              end
          | None => None
          end
      | _ => None
      end
  end%char.

Definition loads (s : string) : outcome pyval :=
  let l := list_ascii_of_string s in
  match parse_value (S (length l)) l with
  | Some (v, rest) =>
      match skip_ws rest with
      | [] => Ok v
      | _ :: _ => Raise JSONDecodeError
      end
  | None => Raise JSONDecodeError
  end.

End Json.

(** ** Vocabulary of the statements *)

(** The state a selection call leaves behind: the query text was sent to
    the embedding model, and one new array holds the normalised query. *)
Definition after_query {G} (embed : string -> vec) (query : string)
  (st : G * runtime) : G * runtime :=
  (st.1, mkRuntime (ndarrays st.2 ++ [[fvec_renorm_L2 (embed query)]])
           (embed_calls st.2 ++ [query]) (invoked st.2) (stdout st.2)).

(** [o] is an exception of class [cls]. *)
Definition fails_with {A} (o : outcome A) (cls : string) : Prop :=
  exists e, o = Raise e /\ class_name e = cls.

(** [o] is a normal return. *)
Definition returns {A} (o : outcome A) : Prop := exists a, o = Ok a.

(** A call left the notebook's globals and every array that existed
    before it as they were, and neither printed nor invoked a tool. *)
Definition registry_unchanged {G} (st st' : G * runtime) : Prop :=
  st'.1 = st.1 /\
  ndarrays st.2 `prefix_of` ndarrays st'.2 /\
  invoked st'.2 = invoked st.2 /\
  stdout st'.2 = stdout st.2.

(** The stock-price loop after one successful step: the tool message is
    appended to the transcript, the invocation is recorded, four lines are
    printed. *)
Definition stock_step_done (repr : pyval -> string) (tc : Langchain.tool_call)
  (content : string) (st : list Langchain.message * runtime)
  : list Langchain.message * runtime :=
  (st.1 ++ [Langchain.ToolMessage "get_stock_price" content (Langchain.id tc)],
   mkRuntime (ndarrays st.2) (embed_calls st.2)
     (invoked st.2 ++ [("get_stock_price", Langchain.args tc)])
     (stdout st.2 ++ ["get_stock_price"; repr (Langchain.args tc); content;
                      EmptyString])).

(** ... and after a step whose invocation raised: only the invocation is
    recorded. *)
Definition stock_step_failed (tc : Langchain.tool_call)
  (st : list Langchain.message * runtime) : list Langchain.message * runtime :=
  (st.1,
   mkRuntime (ndarrays st.2) (embed_calls st.2)
     (invoked st.2 ++ [("get_stock_price", Langchain.args tc)]) (stdout st.2)).

(** The state after the steps for [calls], all of whose invocations
    return. *)
Definition stock_steps_done (invoke : Langchain.tool_call -> outcome string)
  (repr : pyval -> string) (calls : list Langchain.tool_call)
  (st : list Langchain.message * runtime) : list Langchain.message * runtime :=
  foldl (fun st tc =>
           match invoke tc with
           | Ok content => stock_step_done repr tc content st
           | Raise _ => st
           end) st calls.

(** ** Stub collaborators and example states *)

Module Scenario.

(** An embedding model that answers every text with the vector (3, 4). *)
Definition embed_34 : string -> vec := fun _ => [3; 4]%R.

(** An embedding model that knows the notebooks' texts: what is about
    mathematics lies at (1, 0), automation at (0, 1), messaging at
    (-1, 0); any other text is answered with the zero vector. *)
Definition stub_embed (text : string) : vec :=
  if String.eqb text "Use Wolfram Alpha to compute mathematical expressions or retrieve information."
  then [1; 0]%R
  else if String.eqb text "Tools related to mathematical computations and data analysis."
  then [1; 0]%R
  else if String.eqb text "Query Wolfram Alpha to compute mathematical expressions or retrieve information."
  then [1; 0]%R
  else if String.eqb text "Solve this equation: 2x + 3 = 7"
  then [1; 0]%R
  else if String.eqb text "Trigger a Zapier webhook to execute predefined automated workflows."
  then [0; 1]%R
  else if String.eqb text "Tools that automate workflows and integrate different services."
  then [0; 1]%R
  else if String.eqb text "Trigger a Zapier webhook to execute a predefined Zap."
  then [0; 1]%R
  else if String.eqb text "Send messages to specific Slack channels to communicate with team members."
  then [-1; 0]%R
  else if String.eqb text "Tools that facilitate communication and messaging."
  then [-1; 0]%R
  else if String.eqb text "Send a message to a specified Slack channel."
  then [-1; 0]%R
  else [0; 0]%R.

Definition user_query : string := "Solve this equation: 2x + 3 = 7".

(** Replies of the chat model to the parameter prompt. *)
Definition quoted (s : string) : string :=
  String (ascii_of_nat 34) s +:+ String (ascii_of_nat 34) EmptyString.

Definition llm_prose : string -> string :=
  fun _ => "The expression to evaluate is 2x + 3 = 7.".

Definition llm_empty_object : string -> string := fun _ => "{}".

Definition llm_expression : string -> string :=
  fun _ => "{" +:+ quoted "expression" +:+ ": " +:+ quoted "2x + 3 = 7" +:+ "}".

Definition llm_channel_and_more : string -> string :=
  fun _ => "{" +:+ quoted "channel" +:+ ": " +:+ quoted "#dev" +:+ ", "
           +:+ quoted "priority" +:+ ": 1}".

(** A namespace in which the Wolfram Alpha tool is bound and its request
    is refused by the service. *)
Definition wolfram_refused : gmap string (pyval -> outcome string) :=
  <["query_wolfram_alpha" :=
      fun _ => Raise (ValueError "Wolfram Alpha API Error: 403 - Forbidden")]> ∅.

(** A chat model that asks for two stock prices, then answers with a
    fixed sentence; and a quote service that knows no ticker. *)
Definition two_calls : list Langchain.tool_call :=
  [Langchain.mkToolCall "get_stock_price" (PDict [("ticker", PStr "AAPL")]) "call_1";
   Langchain.mkToolCall "get_stock_price" (PDict [("ticker", PStr "MSFT")]) "call_2"].

Definition llm_two_calls (messages : list Langchain.message)
  : string * list Langchain.tool_call :=
  match messages with
  | [Langchain.HumanMessage _] => (EmptyString, two_calls)
  | _ => ("Here is what I found.", [])
  end.

Definition service_down : string -> Z * outcome pyval :=
  fun _ => (404, Raise JSONDecodeError).

Definition repr_stub : pyval -> string := fun _ => "<value>".

(** A chat model that calls a tool the calculator notebook does not
    have. *)
Definition divide_call : Langchain.tool_call :=
  Langchain.mkToolCall "Divide" (PDict [("x", PInt 1); ("y", PInt 2)]) "call_1".

(** The hierarchical notebook's groups after cell 8, with a docstring
    given to the Wolfram Alpha tool as well. *)
Definition documented_wolfram_alpha : Hierarchical.tool :=
  Hierarchical.mkTool "query_wolfram_alpha" (Some "
    Query Wolfram Alpha to compute mathematical expressions or retrieve information.

    Args:
        expression (str): The mathematical expression or query to evaluate.
    ").

Definition documented_groups : list (string * Hierarchical.group_info) :=
  Hierarchical.append_tool "Communication" Hierarchical.send_slack_message
    (Hierarchical.append_tool "Automation" Hierarchical.trigger_zapier_webhook
       (Hierarchical.append_tool "Computation" documented_wolfram_alpha
          Hierarchical.tool_groups_cell4)).

(** What cells 9 to 11 of the hierarchical notebook leave in the globals
    and in the runtime for these groups and the stub embedding model. *)
Definition group_vectors : list vec := [[1; 0]; [0; 1]; [-1; 0]]%R.

Definition one_tool_entry (t : Hierarchical.tool) (v : vec) (r : ref)
  : Hierarchical.tool_info :=
  Hierarchical.mkToolInfo (mkIndex 2 (map fvec_renorm_L2 [v])) [t] r.

Definition hier_registry : Hierarchical.globals :=
  Hierarchical.mkGlobals documented_groups
    ["Computation"; "Automation"; "Communication"]
    group_vectors
    (mkIndex 2 (map fvec_renorm_L2 group_vectors))
    (<["Communication" :=
         one_tool_entry Hierarchical.send_slack_message [-1; 0]%R 3%nat]>
       (<["Automation" :=
            one_tool_entry Hierarchical.trigger_zapier_webhook [0; 1]%R 2%nat]>
          (<["Computation" :=
               one_tool_entry documented_wolfram_alpha [1; 0]%R 1%nat]> ∅))).

Definition hier_runtime : runtime :=
  mkRuntime
    [map fvec_renorm_L2 group_vectors;
     map fvec_renorm_L2 [[1; 0]%R];
     map fvec_renorm_L2 [[0; 1]%R];
     map fvec_renorm_L2 [[-1; 0]%R]]
    ["Tools related to mathematical computations and data analysis.";
     "Tools that automate workflows and integrate different services.";
     "Tools that facilitate communication and messaging.";
     "Query Wolfram Alpha to compute mathematical expressions or retrieve information.";
     "Trigger a Zapier webhook to execute a predefined Zap.";
     "Send a message to a specified Slack channel."]
    [] [].

(** The same for the groups of cell 4, to which no tool has been
    assigned. *)
Definition empty_groups_registry : Hierarchical.globals :=
  Hierarchical.mkGlobals Hierarchical.tool_groups_cell4
    ["Computation"; "Automation"; "Communication"]
    group_vectors
    (mkIndex 2 (map fvec_renorm_L2 group_vectors))
    ∅.

Definition empty_groups_runtime : runtime :=
  mkRuntime
    [map fvec_renorm_L2 group_vectors]
    ["Tools related to mathematical computations and data analysis.";
     "Tools that automate workflows and integrate different services.";
     "Tools that facilitate communication and messaging."]
    [] [].

(** A tool behaviour for the hierarchical driver. *)
Definition tool_answers : Hierarchical.tool -> pyval -> outcome string :=
  fun _ _ => Ok "x = 2".

(** The default parameter values written in [determine_parameters]. *)
Definition schema_default (query param : string) : pyval :=
  if String.eqb param "zap_id" then PStr "123456"
  else if String.eqb param "payload" then PDict [("data", PStr query)]
  else if String.eqb param "channel" then PStr "#general"
  else if String.eqb param "message" then PStr query
  else PNone.

(** What cells 5 to 9 of the flat notebook leave in the globals. *)
Definition flat_registry (embed : string -> vec)
  (items : list (string * string)) : Semantic.globals :=
  let tool_embeddings := map (fun item => embed item.2) items in
  Semantic.mkGlobals tool_embeddings (map fst items)
    (mkIndex (shape1 tool_embeddings) tool_embeddings)
    (<[0 := "query_wolfram_alpha"]>
       (<[1 := "trigger_zapier_webhook"]>
          (<[2 := "send_slack_message"]> ∅))).

(** The runtime after those cells: one embedding call per description,
    the array normalised by cell 7, and the array added by cell 8. *)
Definition flat_runtime (embed : string -> vec)
  (items : list (string * string)) (rt : runtime) : runtime :=
  let tool_embeddings := map (fun item => embed item.2) items in
  mkRuntime
    (ndarrays rt ++ [map fvec_renorm_L2 tool_embeddings; tool_embeddings])
    (embed_calls rt ++ map snd items) (invoked rt) (stdout rt).

End Scenario.

(** ** The Zapier tool of the hierarchical notebook (cell 6) *)

Module Tools.

(** What [requests.post] gives back: a response, or a
    [requests.exceptions.RequestException] with its message. *)
Inductive http_result : Type :=
  | Response (status_code : Z) (text : string)
  | RequestException (msg : string).

Section Zapier.

(** [requests.post(url, json=payload)] *)
Variable requests_post : string -> pyval -> http_result.

Definition trigger_zapier_webhook (zap_id : string) (payload : pyval)
  : outcome string :=
  let zapier_webhook_url :=
    "https://hooks.zapier.com/hooks/catch/" +:+ zap_id +:+ "/" in
  match requests_post zapier_webhook_url payload with
  | Response status_code text =>
      if status_code =? 200 then
        Ok ("Zapier webhook '" +:+ zap_id +:+ "' successfully triggered.")
      else
        Raise (ValueError ("Zapier API Error: " +:+ pretty status_code
                           +:+ " - " +:+ text))
  | RequestException msg =>
      Raise (ValueError ("Failed to trigger Zapier webhook '" +:+ zap_id
                         +:+ "': " +:+ msg))
  end.

(** [trigger_zapier_webhook.invoke(args)]: the arguments are checked
    against the signature ([zap_id: str], [payload: dict]) before the
    body runs. *)
Definition invoke_zapier (args : pyval) : outcome string :=
  match args with
  | PDict items =>
      match dict_lookup "zap_id" items, dict_lookup "payload" items with
      | Some (PStr zap_id), Some (PDict payload) =>
          trigger_zapier_webhook zap_id (PDict payload)
      | _, _ => Raise ValidationError
      end
  | _ => Raise ValidationError
  end.

End Zapier.

End Tools.

(** ** More vocabulary *)

(** The text cell 11 of the hierarchical notebook embeds for a tool: the
    first line of its stripped docstring. *)
Definition tool_description (t : Hierarchical.tool) : string :=
  first_line (strip (default EmptyString (Hierarchical.doc t))).

(** Every tool of every group has a docstring. *)
Definition documented (tool_groups : list (string * Hierarchical.group_info))
  : bool :=
  forallb (fun item =>
             forallb (fun t => bool_decide (is_Some (Hierarchical.doc t)))
               (Hierarchical.tools item.2))
    tool_groups.

(** The exceptions a selection function of the hierarchical notebook can
    end with. *)
Definition selection_error (e : pyexn) : Prop :=
  e = AssertionError \/ e = IndexError \/ exists key, e = KeyError key.

(** The calculator loop after the steps for [calls], whose invocations
    returned [contents]: one tool message per call, under the lower-cased
    name of the call and with the call's id; one invocation and one printed
    line per call. *)
Definition calc_steps_done (repr : pyval -> string)
  (calls : list Langchain.tool_call) (contents : list string)
  (st : list Langchain.message * runtime) : list Langchain.message * runtime :=
  (st.1 ++ zip_with (fun tc content =>
                       Langchain.ToolMessage (lower (Langchain.name tc)) content
                         (Langchain.id tc)) calls contents,
   mkRuntime (ndarrays st.2) (embed_calls st.2)
     (invoked st.2
      ++ map (fun tc => (lower (Langchain.name tc), Langchain.args tc)) calls)
     (stdout st.2
      ++ zip_with (fun tc content =>
                     lower (Langchain.name tc) +:+ " "
                     +:+ repr (Langchain.args tc) +:+ " " +:+ content)
           calls contents)).

(** The call resolves to a tool whose invocation returns [content]. *)
Definition calc_call_returns
  (tool_invoke : Calc.calc_tool -> Langchain.tool_call -> outcome string)
  (tc : Langchain.tool_call) (content : string) : Prop :=
  exists t, Calc.resolve (Langchain.name tc) = Ok t /\
            tool_invoke t tc = Ok content.

(** The call's step raises [e]: no tool has its lower-cased name, or the
    invocation of the tool raises. *)
Definition calc_call_raises
  (tool_invoke : Calc.calc_tool -> Langchain.tool_call -> outcome string)
  (tc : Langchain.tool_call) (e : pyexn) : Prop :=
  Calc.resolve (Langchain.name tc) = Raise e \/
  exists t, Calc.resolve (Langchain.name tc) = Ok t /\
            tool_invoke t tc = Raise e.

(** ** More stub collaborators *)

Module Cases.

(** A reply of the chat model that is JSON but not an object. *)
Definition llm_list : string -> string := fun _ => "[1, 2]".

(** A fourth tool description, after the three of the flat notebook, and
    an embedding model that puts only that description next to the stock
    question. *)
Definition stock_question : string := "What is the stock price of Apple?".

Definition stock_description : string :=
  "Get the stock price for the stock exchange ticker for the company.".

Definition four_tools : list (string * string) :=
  Semantic.tool_descriptions ++ [("get_stock_price", stock_description)].

Definition embed_finance (text : string) : vec :=
  if String.eqb text stock_description then [1; 0]%R
  else if String.eqb text stock_question then [1; 0]%R
  else [0; 1]%R.

(** A namespace in which the Wolfram Alpha tool is bound and answers. *)
Definition wolfram_answers : gmap string (pyval -> outcome string) :=
  <["query_wolfram_alpha" := fun _ => Ok "x = 2"]> ∅.

(** A query the stub embedding model of the scenario puts on the side of
    automation. *)
Definition automation_query : string :=
  "Trigger a Zapier webhook to execute a predefined Zap.".

(** A chat model that asks the calculator for a product and a sum, as in
    the run recorded in the notebook, and then answers; tools that return
    the recorded results; and a model whose second call names a tool the
    notebook does not have. *)
Definition product_and_sum : list Langchain.tool_call :=
  [Langchain.mkToolCall "Multiply"
     (PDict [("x", PInt 393); ("y", PFloat 12.25)]) "call_1";
   Langchain.mkToolCall "add" (PDict [("x", PInt 11); ("y", PInt 49)]) "call_2"].

Definition llm_product_and_sum (messages : list Langchain.message)
  : string * list Langchain.tool_call :=
  match messages with
  | [Langchain.HumanMessage _] => (EmptyString, product_and_sum)
  | _ => ("The product is 4814.25 and the sum is 60.", [])
  end.

Definition recorded_results (t : Calc.calc_tool) (tc : Langchain.tool_call)
  : outcome string :=
  match t with
  | Calc.multiply => Ok "4814.25"
  | Calc.add => Ok "60.0"
  | Calc.exponentiate => Ok "1.0"
  end.

Definition llm_product_then_divide (messages : list Langchain.message)
  : string * list Langchain.tool_call :=
  match messages with
  | [Langchain.HumanMessage _] =>
      (EmptyString,
       [Langchain.mkToolCall "Multiply"
          (PDict [("x", PInt 393); ("y", PFloat 12.25)]) "call_1";
        Scenario.divide_call;
        Langchain.mkToolCall "add" (PDict [("x", PInt 11); ("y", PInt 49)])
          "call_3"])
  | _ => ("The product is 4814.25.", [])
  end.

(** A Zapier endpoint that is down. *)
Definition zapier_down : string -> pyval -> Tools.http_result :=
  fun _ _ => Tools.RequestException "connection refused".

End Cases.

(** * Properties *)

(** ** The flat index: ranking, result sizes, norms *)

Lemma insert_hit_perm h l : insert_hit h l ≡ₚ h :: l.
Proof.
  induction l as [|h' t IH]; simpl; [reflexivity|].
  destruct (Rle_dec (snd h) (snd h')); [reflexivity|].
  rewrite IH. apply Permutation_swap.
Qed.

Lemma rank_perm xb q :
  rank xb q ≡ₚ imap (fun i v => (i, fvec_L2sqr q v)) xb.
Proof.
  unfold rank. induction (imap _ xb) as [|h t IH]; simpl; [reflexivity|].
  rewrite insert_hit_perm. by rewrite IH.
Qed.

Lemma rank_length xb q : length (rank xb q) = length xb.
Proof. rewrite (Permutation_length (rank_perm xb q)). apply length_imap. Qed.

Lemma rank_elem xb q h :
  h ∈ rank xb q -> exists v, xb !! h.1 = Some v /\ h.2 = fvec_L2sqr q v.
Proof.
  rewrite (rank_perm xb q). intros [i [v [-> Hv]]]%elem_of_lookup_imap.
  exists v. split; [exact Hv | reflexivity].
Qed.

Lemma insert_hit_sorted h l :
  Sorted by_distance l -> Sorted by_distance (insert_hit h l).
Proof.
  induction 1 as [|h' t Ht IH Hhd]; simpl.
  - repeat constructor.
  - destruct (Rle_dec h.2 h'.2) as [Hle|Hgt].
    + constructor; [by constructor | by constructor].
    + constructor; [exact IH|].
      destruct t as [|h'' t]; simpl.
      * constructor. unfold by_distance. lra.
      * destruct (Rle_dec h.2 h''.2).
        -- constructor. unfold by_distance. lra.
        -- constructor. by inversion Hhd.
Qed.

Lemma rank_sorted xb q : Sorted by_distance (rank xb q).
Proof.
  unfold rank. induction (imap _ xb) as [|h t IH]; simpl; [constructor|].
  by apply insert_hit_sorted.
Qed.

Lemma Sorted_take {A} (R : A -> A -> Prop) (l : list A) k :
  Sorted R l -> Sorted R (take k l).
Proof.
  intros H. revert k. induction H as [|a l Hl IH Hhd]; intros [|k]; simpl;
    try constructor.
  - apply IH.
  - destruct Hhd; destruct k; simpl; constructor. done.
Qed.

Lemma knn_hits_sorted xb q k : Sorted by_distance (knn_hits xb q k).
Proof. apply Sorted_take, rank_sorted. Qed.

Lemma knn_hits_length xb q k :
  length (knn_hits xb q k) = (k `min` length xb)%nat.
Proof. unfold knn_hits. by rewrite length_take, rank_length. Qed.

Lemma knn_labels_length xb q k : length (knn_labels xb q k) = k.
Proof.
  unfold knn_labels. rewrite length_app, length_map, length_replicate.
  rewrite knn_hits_length. lia.
Qed.

Lemma knn_labels_full xb q k :
  (k <= length xb)%nat ->
  knn_labels xb q k = map (fun h => Z.of_nat h.1) (knn_hits xb q k).
Proof.
  intros Hk. unfold knn_labels. rewrite knn_hits_length.
  replace (k - k `min` length xb)%nat with O by lia.
  simpl. apply app_nil_r.
Qed.

Lemma knn_labels_padded xb q k :
  (length xb <= k)%nat ->
  knn_labels xb q k =
    map (fun h => Z.of_nat h.1) (rank xb q) ++ replicate (k - length xb)%nat (-1).
Proof.
  intros Hk. unfold knn_labels, knn_hits.
  rewrite take_ge by (rewrite rank_length; lia).
  by rewrite rank_length.
Qed.

Lemma knn_hits_elem xb q k h :
  h ∈ knn_hits xb q k -> exists v, xb !! h.1 = Some v /\ h.2 = fvec_L2sqr q v.
Proof.
  intros Hin. apply rank_elem. unfold knn_hits in Hin.
  apply elem_of_take in Hin as [i [Hi _]]. eapply list_elem_of_lookup_2, Hi.
Qed.

Lemma knn_labels_range xb q k i :
  i ∈ knn_labels xb q k -> i = -1 \/ 0 <= i < Z.of_nat (length xb).
Proof.
  unfold knn_labels. rewrite elem_of_app. intros [Hin|Hin].
  - right. apply list_elem_of_fmap in Hin as [h [-> Hh]].
    apply knn_hits_elem in Hh as [v [Hv _]].
    apply lookup_lt_Some in Hv. lia.
  - left. by apply elem_of_replicate in Hin as [-> _].
Qed.

(** Scaling and norms. *)
Lemma norm_L2sqr_scale c v :
  fvec_norm_L2sqr (map (fun x => x * c)%R v) = (c * c * fvec_norm_L2sqr v)%R.
Proof.
  induction v as [|x v IH]; simpl; [lra|]. 
  unfold fvec_norm_L2sqr in *. simpl. rewrite IH. lra.
Qed.

Lemma norm_L2sqr_nonneg v : (0 <= fvec_norm_L2sqr v)%R.
Proof.
  induction v as [|x v IH]; unfold fvec_norm_L2sqr in *; simpl; [lra|]. nra.
Qed.

Lemma renorm_unit v :
  (0 < fvec_norm_L2sqr v)%R -> norm_L2 (fvec_renorm_L2 v) = 1%R.
Proof.
  intros Hpos. unfold norm_L2, fvec_renorm_L2.
  destruct (Rlt_dec 0 (fvec_norm_L2sqr v)) as [_|Hn]; [|contradiction].
  rewrite norm_L2sqr_scale.
  assert (Hs : (0 < sqrt (fvec_norm_L2sqr v))%R) by (by apply sqrt_lt_R0).
  replace (1 / sqrt (fvec_norm_L2sqr v) * (1 / sqrt (fvec_norm_L2sqr v)) * fvec_norm_L2sqr v)%R
    with 1%R; [apply sqrt_1|].
  rewrite <- (sqrt_sqrt (fvec_norm_L2sqr v)) at 3 by lra.
  field. lra.
Qed.

Lemma renorm_zero v :
  fvec_norm_L2sqr v = 0%R -> fvec_renorm_L2 v = v.
Proof.
  intros Hz. unfold fvec_renorm_L2.
  destruct (Rlt_dec 0 (fvec_norm_L2sqr v)); [lra|reflexivity].
Qed.


(** ** Arrays allocated by a query *)

Lemma alter_fresh {A} (f : A -> A) (h : list A) (x : A) :
  alter f (length h) (h ++ [x]) = h ++ [f x].
Proof.
  induction h as [|a h IH]; simpl; [reflexivity|].
  f_equal. exact IH.
Qed.

Lemma lookup_fresh {A} (h : list A) (x : A) : (h ++ [x]) !! length h = Some x.
Proof. induction h; simpl; auto. Qed.


(** ** What the three selection functions compute *)

Section SelectionEquations.

Variable embed : string -> vec.

(** Flat [select_tool]: the state after the call does not depend on
    whether the search raised. *)
Lemma flat_select_tool_eq query top_k st :
  Semantic.select_tool embed query top_k st =
  (match search (Semantic.index st.1) [fvec_renorm_L2 (embed query)] top_k with
   | Ok (D, I_) =>
       match py_index I_ 0 with
       | Ok I0 => Ok (omap (fun idx => Semantic.index_to_tool st.1 !! idx) I0)
       | Raise e => Raise e
       end
   | Raise e => Raise e
   end, after_query embed query st).
Proof.
  destruct st as [g rt].
  unfold Semantic.select_tool, after_query, mbind, M_bind, read_globals,
    on_rt, embed_call, np_array, normalize_L2, np_read, modify, lift, mret,
    M_ret, set_ndarrays; simpl.
  rewrite alter_fresh, lookup_fresh. simpl.
  destruct (search _ _ _) as [[D I_]|e]; [|reflexivity].
  destruct (py_index I_ 0); reflexivity.
Qed.

Lemma select_group_eq query top_k st :
  Hierarchical.select_group embed query top_k st =
  (match search (Hierarchical.group_index st.1)
           [fvec_renorm_L2 (embed query)] top_k with
   | Ok (D, I_) =>
       match py_index I_ 0 with
       | Ok I0 => comprehension (py_index (Hierarchical.group_names st.1)) I0
       | Raise e => Raise e
       end
   | Raise e => Raise e
   end, after_query embed query st).
Proof.
  destruct st as [g rt].
  unfold Hierarchical.select_group, after_query, mbind, M_bind, read_globals,
    on_rt, embed_call, np_array, normalize_L2, np_read, modify, lift, mret,
    M_ret, set_ndarrays; simpl.
  rewrite alter_fresh, lookup_fresh. simpl.
  destruct (search _ _ _) as [[D I_]|e]; [|reflexivity].
  destruct (py_index I_ 0); reflexivity.
Qed.

Lemma hier_select_tool_eq query group_name top_k st :
  Hierarchical.select_tool embed query group_name top_k st =
  match Hierarchical.tool_indices st.1 !! group_name with
  | None => (Raise (KeyError group_name), st)
  | Some tool_info =>
      (match search (Hierarchical.index tool_info)
               [fvec_renorm_L2 (embed query)] top_k with
       | Ok (D, I_) =>
           match py_index I_ 0 with
           | Ok I0 =>
               comprehension (py_index (Hierarchical.functions tool_info))
                 (filter (fun idx =>
                    idx < Z.of_nat (length (Hierarchical.functions tool_info)))
                    I0)
           | Raise e => Raise e
           end
       | Raise e => Raise e
       end, after_query embed query st)
  end.
Proof.
  destruct st as [g rt].
  unfold Hierarchical.select_tool, after_query, mbind, M_bind, read_globals,
    on_rt, embed_call, np_array, normalize_L2, np_read, modify, lift, mret,
    M_ret, set_ndarrays; simpl.
  destruct (Hierarchical.tool_indices g !! group_name) as [tool_info|];
    [|reflexivity].
  rewrite alter_fresh, lookup_fresh. simpl.
  destruct (search _ _ _) as [[D I_]|e]; [|reflexivity].
  destruct (py_index I_ 0); reflexivity.
Qed.

Lemma after_query_unchanged {G} query (st : G * runtime) :
  registry_unchanged st (after_query embed query st).
Proof.
  unfold registry_unchanged, after_query; simpl.
  split; [reflexivity|]. split; [|split; reflexivity].
  by apply prefix_app_r.
Qed.

Lemma registry_unchanged_refl {G} (st : G * runtime) :
  registry_unchanged st st.
Proof. unfold registry_unchanged. by repeat split. Qed.

Lemma search_nonpositive ix x k : k <= 0 -> search ix x k = Raise AssertionError.
Proof.
  intros Hk. unfold search.
  destruct (negb _); [reflexivity|].
  destruct (0 <? k) eqn:E; [apply Z.ltb_lt in E; lia|reflexivity].
Qed.

End SelectionEquations.

(** ** Selection is read-only *)

(** C7. A selection call, in either notebook, leaves the registry as it
    was: the globals (tool names, group names, the group partition, every
    index and its stored vectors, the position-to-name table) are equal
    before and after, and every array that existed before the call is
    still there unchanged. This holds whether the call returns or
    raises. *)
Theorem selection_leaves_registry_unchanged
  (embed : string -> vec) (query group_name : string) (top_k : Z) :
  (forall st, registry_unchanged st (Semantic.select_tool embed query top_k st).2) /\
  (forall st, registry_unchanged st (Hierarchical.select_group embed query top_k st).2) /\
  (forall st, registry_unchanged st
     (Hierarchical.select_tool embed query group_name top_k st).2).
Proof.
  split; [|split]; intros st.
  - rewrite flat_select_tool_eq. apply after_query_unchanged.
  - rewrite select_group_eq. apply after_query_unchanged.
  - rewrite hier_select_tool_eq.
    destruct (Hierarchical.tool_indices st.1 !! group_name).
    + apply after_query_unchanged.
    + apply registry_unchanged_refl.
Qed.

(** ** No validation of [top_k] *)

Lemma class_name_not_InvalidArgument e : class_name e <> "InvalidArgument".
Proof. destruct e; discriminate. Qed.

(** C3, as stated, fails: with [top_k = 0] the flat [select_tool] first
    sends the query to the embedding model and then fails inside the
    index search with AssertionError; it does not end in an
    InvalidArgument raised before the embedding model is called. *)
Lemma top_k_zero_reaches_the_embedder :
  let st := (Scenario.flat_registry Scenario.embed_34 Semantic.tool_descriptions,
             empty_runtime) in
  let r := Semantic.select_tool Scenario.embed_34 "Solve 2x + 3 = 7" 0 st in
  r.1 = Raise AssertionError /\
  embed_calls r.2.2 = ["Solve 2x + 3 = 7"] /\
  ~ (fails_with r.1 "InvalidArgument" /\ embed_calls r.2.2 = embed_calls st.2).
Proof.
  intros st r. subst r. rewrite flat_select_tool_eq.
  rewrite search_nonpositive by lia. simpl.
  split; [reflexivity|]. split; [reflexivity|].
  intros [_ Hcalls]. discriminate Hcalls.
Qed.

(** C3, amended. Neither [select_tool] nor [select_group] checks [top_k]:
    for every [top_k] the query is first sent to the embedding model, and
    no InvalidArgument is raised; when [top_k <= 0] the call then fails
    inside the index search, with that library's AssertionError. *)
Theorem top_k_is_not_validated
  (embed : string -> vec) (query : string) (top_k : Z) :
  (forall st,
     let r := Semantic.select_tool embed query top_k st in
     embed_calls r.2.2 = embed_calls st.2 ++ [query] /\
     ~ fails_with r.1 "InvalidArgument" /\
     (top_k <= 0 -> r.1 = Raise AssertionError)) /\
  (forall st,
     let r := Hierarchical.select_group embed query top_k st in
     embed_calls r.2.2 = embed_calls st.2 ++ [query] /\
     ~ fails_with r.1 "InvalidArgument" /\
     (top_k <= 0 -> r.1 = Raise AssertionError)).
Proof.
  split; intros st r; subst r.
  - rewrite flat_select_tool_eq; simpl. split; [reflexivity|]. split.
    + intros [e [_ He]]. exact (class_name_not_InvalidArgument e He).
    + intros Hk. by rewrite search_nonpositive.
  - rewrite select_group_eq; simpl. split; [reflexivity|]. split.
    + intros [e [_ He]]. exact (class_name_not_InvalidArgument e He).
    + intros Hk. by rewrite search_nonpositive.
Qed.

Lemma top_k_is_not_validated_witness :
  let st := (Scenario.flat_registry Scenario.embed_34 Semantic.tool_descriptions,
             empty_runtime) in
  let r := Semantic.select_tool Scenario.embed_34 "Solve 2x + 3 = 7" (-1) st in
  embed_calls r.2.2 = ["Solve 2x + 3 = 7"] /\ r.1 = Raise AssertionError.
Proof.
  intros st r.
  destruct (top_k_is_not_validated Scenario.embed_34 "Solve 2x + 3 = 7" (-1))
    as [Hflat _].
  destruct (Hflat st) as (Hcalls & _ & Hraise).
  split; [exact Hcalls | apply Hraise; lia].
Defined.

(** ** Running the index on the stub embedding model *)

Lemma search_ok ix q k :
  length q = d ix -> 0 < k ->
  search ix [q] k =
    Ok ([knn_distances (xb ix) q (Z.to_nat k)], [knn_labels (xb ix) q (Z.to_nat k)]).
Proof.
  intros Hd Hk. unfold search; simpl.
  rewrite Hd, Nat.eqb_refl; simpl.
  destruct (0 <? k) eqn:E; [reflexivity|apply Z.ltb_ge in E; lia].
Qed.

Lemma renorm_length v : length (fvec_renorm_L2 v) = length v.
Proof.
  unfold fvec_renorm_L2. destruct (Rlt_dec _ _); [apply length_map|reflexivity].
Qed.

Lemma renorm_e1 : fvec_renorm_L2 [1; 0]%R = [1; 0]%R.
Proof.
  unfold fvec_renorm_L2, fvec_norm_L2sqr; simpl.
  destruct (Rlt_dec 0 (1 * 1 + (0 * 0 + 0))) as [_|Hn]; [|exfalso; apply Hn; lra].
  replace (1 * 1 + (0 * 0 + 0))%R with 1%R by lra.
  rewrite sqrt_1. f_equal; [lra|]. f_equal. lra.
Qed.

Lemma rank3 q v0 v1 v2 :
  (fvec_L2sqr q v0 <= fvec_L2sqr q v1)%R ->
  (fvec_L2sqr q v1 <= fvec_L2sqr q v2)%R ->
  rank [v0; v1; v2] q =
    [(0%nat, fvec_L2sqr q v0); (1%nat, fvec_L2sqr q v1); (2%nat, fvec_L2sqr q v2)].
Proof.
  intros H01 H12. unfold rank; simpl.
  destruct (Rle_dec (fvec_L2sqr q v1) (fvec_L2sqr q v2)); [|contradiction].
  simpl.
  destruct (Rle_dec (fvec_L2sqr q v0) (fvec_L2sqr q v1)); [|contradiction].
  reflexivity.
Qed.

Lemma scenario_rank :
  rank [[1; 0]; [0; 1]; [-1; 0]]%R [1; 0]%R =
    [(0%nat, fvec_L2sqr [1; 0]%R [1; 0]%R); (1%nat, fvec_L2sqr [1; 0]%R [0; 1]%R);
     (2%nat, fvec_L2sqr [1; 0]%R [-1; 0]%R)].
Proof.
  apply rank3; unfold fvec_L2sqr, fvec_norm_L2sqr; simpl; lra.
Qed.

Lemma scenario_labels k :
  knn_labels [[1; 0]; [0; 1]; [-1; 0]]%R [1; 0]%R k =
    take k [0; 1; 2] ++ replicate (k - 3) (-1).
Proof.
  unfold knn_labels, knn_hits. rewrite scenario_rank.
  destruct k as [|[|[|[|k]]]]; reflexivity.
Qed.

(** Scenario A of the flat notebook: the mathematics query selects the
    Wolfram Alpha tool. *)
Lemma scenario_flat_select :
  let st := (Scenario.flat_registry Scenario.stub_embed Semantic.tool_descriptions, empty_runtime) in
  Semantic.select_tool Scenario.stub_embed Scenario.user_query 1 st =
  (Ok ["query_wolfram_alpha"], after_query Scenario.stub_embed Scenario.user_query st).
Proof.
  intros st. rewrite flat_select_tool_eq. f_equal.
  change (Scenario.stub_embed Scenario.user_query) with [1; 0]%R.
  rewrite renorm_e1.
  rewrite search_ok by (reflexivity || lia).
  change (xb (Semantic.index st.1)) with [[1; 0]; [0; 1]; [-1; 0]]%R.
  rewrite scenario_labels. reflexivity.
Qed.

(** ** Binding arguments in the flat notebook *)

Section Binding.

Variable embed : string -> vec.
Variable llm : string -> string.
Variable json_loads : string -> outcome pyval.
Variable namespace : gmap string (pyval -> outcome string).

Lemma determine_parameters_decode_error query tool_name e :
  json_loads (llm (Semantic.prompt query tool_name)) = Raise e ->
  Semantic.determine_parameters llm json_loads query tool_name = Raise e.
Proof.
  intros H. unfold Semantic.determine_parameters, mbind, outcome_bind.
  by rewrite H.
Qed.

(** The driver up to the call of [determine_parameters]. *)
Lemma main_after_selection query st tool_name rest st1 :
  Semantic.select_tool embed query 1 st = (Ok (tool_name :: rest), st1) ->
  tool_name <> EmptyString ->
  Semantic.main embed llm json_loads namespace query st =
  match Semantic.determine_parameters llm json_loads query tool_name with
  | Raise e => (Raise e, st1)
  | Ok args =>
      try_except_ValueError
        (tool ← lift (match namespace !! tool_name with
                      | Some t => Ok t
                      | None => Raise (KeyError tool_name)
                      end);
         tool_result ← on_rt (invoke_call tool_name (PDict args) tool);
         on_rt (print ("Tool '" +:+ tool_name +:+ "' Result: " +:+ tool_result)))
        (fun e =>
           on_rt (print ("Error invoking tool '" +:+ tool_name +:+ "': "
                         +:+ str_exn e))) st1
  end.
Proof.
  intros Hsel Hne. unfold Semantic.main, mbind at 1, M_bind at 1.
  rewrite Hsel. simpl.
  destruct tool_name as [|c tool_name]; [done|]. simpl.
  unfold mbind at 1, M_bind at 1, lift at 1.
  destruct (Semantic.determine_parameters _ _ _ _); reflexivity.
Qed.

End Binding.

(** C2, as stated, fails: a reply that is not JSON makes
    [determine_parameters] raise the decoder's own exception, which is no
    MalformedModelResponse, and the driver ends with that exception. *)
Lemma prose_reply_crashes_the_driver :
  let st := (Scenario.flat_registry Scenario.stub_embed Semantic.tool_descriptions,
             empty_runtime) in
  let bound := Semantic.determine_parameters Scenario.llm_prose Json.loads
                 Scenario.user_query "query_wolfram_alpha" in
  let r := Semantic.main Scenario.stub_embed Scenario.llm_prose Json.loads
             Scenario.wolfram_refused Scenario.user_query st in
  bound = Raise JSONDecodeError /\
  r.1 = Raise JSONDecodeError /\
  ~ fails_with bound "MalformedModelResponse" /\
  ~ returns r.1.
Proof.
  intros st bound r.
  assert (Hb : bound = Raise JSONDecodeError) by reflexivity.
  assert (Hr : r.1 = Raise JSONDecodeError).
  { subst r. rewrite (main_after_selection _ _ _ _ _ _ _ _ _ scenario_flat_select)
      by discriminate.
    fold bound. by rewrite Hb. }
  split; [exact Hb|]. split; [exact Hr|]. split.
  - rewrite Hb. intros [e [[= <-] He]]. discriminate.
  - rewrite Hr. intros [a Ha]. discriminate.
Qed.

(** C2, amended. When the reply of the model cannot be decoded,
    [determine_parameters] raises the decoder's JSONDecodeError, and the
    driver, which calls it outside its [try] block, ends with that
    exception right after the selection: no tool is invoked, nothing is
    printed. *)
Theorem undecodable_reply_propagates
  (embed : string -> vec) (llm : string -> string)
  (json_loads : string -> outcome pyval)
  (namespace : gmap string (pyval -> outcome string))
  (query tool_name : string) (rest : list string)
  (st st1 : Semantic.globals * runtime) :
  Semantic.select_tool embed query 1 st = (Ok (tool_name :: rest), st1) ->
  tool_name <> EmptyString ->
  json_loads (llm (Semantic.prompt query tool_name)) = Raise JSONDecodeError ->
  Semantic.determine_parameters llm json_loads query tool_name
    = Raise JSONDecodeError /\
  Semantic.main embed llm json_loads namespace query st
    = (Raise JSONDecodeError, st1) /\
  invoked st1.2 = invoked st.2 /\ stdout st1.2 = stdout st.2.
Proof.
  intros Hsel Hne Hjson.
  pose proof (determine_parameters_decode_error llm json_loads _ _ _ Hjson) as Hb.
  split; [exact Hb|]. split.
  - rewrite (main_after_selection _ _ _ _ _ _ _ _ _ Hsel Hne). by rewrite Hb.
  - rewrite flat_select_tool_eq in Hsel. injection Hsel as _ <-. by split.
Qed.

Lemma undecodable_reply_propagates_witness :
  let st := (Scenario.flat_registry Scenario.stub_embed Semantic.tool_descriptions,
             empty_runtime) in
  Semantic.main Scenario.stub_embed Scenario.llm_prose Json.loads
    Scenario.wolfram_refused Scenario.user_query st
  = (Raise JSONDecodeError,
     after_query Scenario.stub_embed Scenario.user_query st).
Proof.
  intros st.
  apply (undecodable_reply_propagates Scenario.stub_embed Scenario.llm_prose
           Json.loads Scenario.wolfram_refused Scenario.user_query
           "query_wolfram_alpha" [] st _ scenario_flat_select).
  - discriminate.
  - reflexivity.
Defined.

(** C9, as stated, fails: when the reply is an object without the key
    [expression], binding for the Wolfram Alpha tool does not fail with
    MissingRequiredParameter; it returns a mapping that binds
    [expression] to [None]. *)
Lemma missing_expression_is_bound_to_None :
  let bound := Semantic.determine_parameters Scenario.llm_empty_object
                 Json.loads Scenario.user_query "query_wolfram_alpha" in
  bound = Ok [("expression", PNone)] /\
  ~ fails_with bound "MissingRequiredParameter".
Proof.
  intros bound. split; [reflexivity|].
  intros [e [He _]]. discriminate He.
Qed.

(** C9, amended. For each of the three tools, when the reply of the model
    decodes to an object, [determine_parameters] returns a mapping whose
    keys are exactly the tool's parameter names, in order: other keys of
    the reply are dropped, a key of the reply keeps its value, and a
    missing key gets the default written in the code ("123456" for
    [zap_id], the query wrapped as data for [payload], "#general" for
    [channel], the query for [message]) or, for [expression], [None];
    the call does not fail. *)
Theorem bound_arguments_follow_the_schema
  (llm : string -> string) (json_loads : string -> outcome pyval)
  (query tool_name : string) (items : list (string * pyval)) :
  tool_name ∈ ["query_wolfram_alpha"; "trigger_zapier_webhook";
               "send_slack_message"] ->
  json_loads (llm (Semantic.prompt query tool_name)) = Ok (PDict items) ->
  exists parameters,
    Semantic.determine_parameters llm json_loads query tool_name = Ok parameters /\
    map fst parameters = Semantic.parameter_schema tool_name /\
    forall param, param ∈ Semantic.parameter_schema tool_name ->
      dict_lookup param parameters =
        Some (default (Scenario.schema_default query param)
                (dict_lookup param items)).
Proof.
  intros Htool Hjson.
  unfold Semantic.determine_parameters, mbind, outcome_bind. rewrite Hjson.
  apply elem_of_cons in Htool as [->|Htool];
    [|apply elem_of_cons in Htool as [->|Htool];
      [|apply list_elem_of_singleton in Htool as ->]];
    simpl; eexists; (split; [reflexivity|]); (split; [reflexivity|]);
    intros param Hparam; simpl in Hparam.
  - apply list_elem_of_singleton in Hparam as ->. reflexivity.
  - apply elem_of_cons in Hparam as [->|Hparam];
      [|apply list_elem_of_singleton in Hparam as ->]; reflexivity.
  - apply elem_of_cons in Hparam as [->|Hparam];
      [|apply list_elem_of_singleton in Hparam as ->]; reflexivity.
Qed.

Lemma bound_arguments_follow_the_schema_witness :
  exists parameters,
    Semantic.determine_parameters Scenario.llm_channel_and_more Json.loads
      Scenario.user_query "send_slack_message" = Ok parameters /\
    map fst parameters = ["channel"; "message"] /\
    forall param, param ∈ ["channel"; "message"] ->
      dict_lookup param parameters =
        Some (default (Scenario.schema_default Scenario.user_query param)
                (dict_lookup param [("channel", PStr "#dev"); ("priority", PInt 1)])).
Proof.
  apply (bound_arguments_follow_the_schema Scenario.llm_channel_and_more
           Json.loads Scenario.user_query "send_slack_message"
           [("channel", PStr "#dev"); ("priority", PInt 1)]).
  - apply elem_of_cons; right. apply elem_of_cons; right. apply elem_of_cons; by left.
  - reflexivity.
Defined.

(** ** Resolving a tool call by name in the calculator notebook *)

Lemma dispatch_table_lookup (s : string) :
  Calc.dispatch_table !! s =
    if decide ("exponentiate" = s) then Some Calc.exponentiate
    else if decide ("multiply" = s) then Some Calc.multiply
    else if decide ("add" = s) then Some Calc.add
    else None.
Proof.
  unfold Calc.dispatch_table. rewrite !lookup_insert, lookup_empty. reflexivity.
Qed.

(** C10. The calculator loop resolves a tool call by looking up its
    lower-cased name in a table whose keys are exactly [add], [multiply]
    and [exponentiate]. A call whose lower-cased name is the name of a
    tool resolves to that tool, whatever the case of its letters. A call
    whose lower-cased name is none of the three raises KeyError, which
    nothing handles: the loop ends there with the state as it was, so no
    tool is invoked for it or for the calls after it. *)
Theorem calc_dispatch_by_lowercased_name
  (tool_invoke : Calc.calc_tool -> Langchain.tool_call -> outcome string)
  (repr : pyval -> string) :
  dom Calc.dispatch_table = ({["add"; "multiply"; "exponentiate"]} : gset string) /\
  (forall t call_name,
     lower call_name = Calc.tool_name t -> Calc.resolve call_name = Ok t) /\
  (forall tc rest st,
     lower (Langchain.name tc) ∉ ["add"; "multiply"; "exponentiate"] ->
     Calc.resolve (Langchain.name tc)
       = Raise (KeyError (lower (Langchain.name tc))) /\
     for_each (tc :: rest) (Calc.dispatch_step tool_invoke repr) st
       = (Raise (KeyError (lower (Langchain.name tc))), st)).
Proof.
  split; [|split].
  - unfold Calc.dispatch_table. rewrite !dom_insert_L, dom_empty_L. set_solver.
  - intros t call_name Hlower. unfold Calc.resolve.
    rewrite Hlower, dispatch_table_lookup. by destruct t.
  - intros tc rest st Hnot.
    assert (Hres : Calc.resolve (Langchain.name tc)
                   = Raise (KeyError (lower (Langchain.name tc)))).
    { unfold Calc.resolve. rewrite dispatch_table_lookup.
      repeat case_decide; try reflexivity; exfalso; apply Hnot;
        repeat (first [apply list_elem_of_here | apply list_elem_of_further]);
        subst; set_solver. }
    split; [exact Hres|].
    simpl. unfold mbind at 1, M_bind at 1.
    unfold Calc.dispatch_step, mbind at 1, M_bind at 1, lift at 1.
    by rewrite Hres.
Qed.

Lemma calc_dispatch_by_lowercased_name_witness :
  Calc.resolve "MULTIPLY" = Ok Calc.multiply /\
  for_each [Scenario.divide_call]
    (Calc.dispatch_step (fun _ _ => Ok "0.5") Scenario.repr_stub)
    ([], empty_runtime)
  = (Raise (KeyError "divide"), ([], empty_runtime)).
Proof.
  destruct (calc_dispatch_by_lowercased_name (fun _ _ => Ok "0.5")
              Scenario.repr_stub) as (_ & Hcase & Hunknown).
  split.
  - apply (Hcase Calc.multiply). reflexivity.
  - apply (Hunknown Scenario.divide_call [] ([], empty_runtime)).
    vm_compute. intros H. repeat (apply elem_of_cons in H as [H|H]; [discriminate|]).
    by apply elem_of_nil in H.
Defined.

(** ** Failing invocations *)

Section StockLoop.

Variable llm_with_tools :
  list Langchain.message -> string * list Langchain.tool_call.
Variable requests_get : string -> Z * outcome pyval.
Variable repr : pyval -> string.

Lemma stock_step_ok tc content st :
  Stock.invoke requests_get repr tc = Ok content ->
  Stock.dispatch_step requests_get repr tc st
  = (Ok tt, stock_step_done repr tc content st).
Proof.
  intros H. destruct st as [messages rt].
  unfold Stock.dispatch_step, stock_step_done, mbind, M_bind, on_rt,
    invoke_call, print, Langchain.append_message, modify; simpl.
  rewrite H. simpl. by rewrite <- !app_assoc.
Qed.

Lemma stock_step_raise tc e st :
  Stock.invoke requests_get repr tc = Raise e ->
  Stock.dispatch_step requests_get repr tc st
  = (Raise e, stock_step_failed tc st).
Proof.
  intros H. destruct st as [messages rt].
  unfold Stock.dispatch_step, stock_step_failed, mbind, M_bind, on_rt,
    invoke_call; simpl.
  by rewrite H.
Qed.

(** The loop over calls that all return. *)
Lemma stock_loop_ok calls st :
  Forall (fun tc => returns (Stock.invoke requests_get repr tc)) calls ->
  for_each calls (Stock.dispatch_step requests_get repr) st
  = (Ok tt, stock_steps_done (Stock.invoke requests_get repr) repr calls st).
Proof.
  intros Hall. revert st.
  induction Hall as [|tc calls [content Htc] _ IH]; intros st; [reflexivity|].
  simpl. unfold mbind at 1, M_bind at 1.
  rewrite (stock_step_ok _ _ _ Htc), Htc. apply IH.
Qed.

(** The loop up to the first call whose invocation raises. *)
Lemma stock_loop_raise done tc rest e st :
  Forall (fun tc => returns (Stock.invoke requests_get repr tc)) done ->
  Stock.invoke requests_get repr tc = Raise e ->
  for_each (done ++ tc :: rest) (Stock.dispatch_step requests_get repr) st
  = (Raise e,
     stock_step_failed tc
       (stock_steps_done (Stock.invoke requests_get repr) repr done st)).
Proof.
  intros Hall Htc. revert st.
  induction Hall as [|tc' done [content Htc'] _ IH]; intros st; simpl.
  - unfold mbind at 1, M_bind at 1. by rewrite (stock_step_raise _ _ _ Htc).
  - unfold mbind at 1, M_bind at 1.
    rewrite (stock_step_ok _ _ _ Htc'), Htc'. apply IH.
Qed.

Lemma stock_steps_done_invoked calls st :
  Forall (fun tc => returns (Stock.invoke requests_get repr tc)) calls ->
  invoked (stock_steps_done (Stock.invoke requests_get repr) repr calls st).2 =
    invoked st.2 ++ map (fun tc => ("get_stock_price", Langchain.args tc)) calls.
Proof.
  intros Hall. revert st.
  induction Hall as [|tc calls [content Htc] _ IH]; intros st; simpl.
  - by rewrite app_nil_r.
  - rewrite Htc, IH. simpl. by rewrite <- app_assoc.
Qed.

Lemma stock_steps_done_length calls st :
  Forall (fun tc => returns (Stock.invoke requests_get repr tc)) calls ->
  length (stock_steps_done (Stock.invoke requests_get repr) repr calls st).1 =
    (length st.1 + length calls)%nat.
Proof.
  intros Hall. revert st.
  induction Hall as [|tc calls [content Htc] _ IH]; intros st; simpl.
  - lia.
  - rewrite Htc, IH. simpl. rewrite length_app. simpl. lia.
Qed.

(** The driver around the loop. *)
Lemma stock_main_eq question st :
  Stock.main llm_with_tools requests_get repr question st =
  let ai_msg := llm_with_tools [Langchain.HumanMessage question] in
  let st1 := ([Langchain.HumanMessage question;
               Langchain.AIMessage ai_msg.1 ai_msg.2], st.2) in
  match for_each ai_msg.2 (Stock.dispatch_step requests_get repr) st1 with
  | (Ok _, st2) => on_rt (print (llm_with_tools st2.1).1) st2
  | (Raise e, st2) => (Raise e, st2)
  end.
Proof.
  destruct st as [messages rt].
  unfold Stock.main, mbind, M_bind, modify, get, Langchain.append_message; simpl.
  destruct (for_each _ _ _) as [[[]|e] st2]; reflexivity.
Qed.

End StockLoop.

Section SemanticInvocation.

Variable embed : string -> vec.
Variable llm : string -> string.
Variable json_loads : string -> outcome pyval.
Variable namespace : gmap string (pyval -> outcome string).

(** The flat driver when the invocation of the selected tool raises an
    exception that [except ValueError] catches. *)
Lemma semantic_invocation_error_caught query st tool_name rest st1 args tool e :
  Semantic.select_tool embed query 1 st = (Ok (tool_name :: rest), st1) ->
  tool_name <> EmptyString ->
  Semantic.determine_parameters llm json_loads query tool_name = Ok args ->
  namespace !! tool_name = Some tool ->
  tool (PDict args) = Raise e ->
  isinstance_ValueError e = true ->
  Semantic.main embed llm json_loads namespace query st =
  (Ok tt,
   (st1.1,
    mkRuntime (ndarrays st1.2) (embed_calls st1.2)
      (invoked st1.2 ++ [(tool_name, PDict args)])
      (stdout st1.2 ++ ["Error invoking tool '" +:+ tool_name +:+ "': "
                        +:+ str_exn e]))).
Proof.
  intros Hsel Hne Hargs Hns Htool He.
  rewrite (main_after_selection _ _ _ _ _ _ _ _ _ Hsel Hne), Hargs.
  destruct st1 as [g rt].
  unfold try_except_ValueError, mbind, M_bind, lift, on_rt, invoke_call, print;
    simpl.
  rewrite Hns; simpl. rewrite Htool, He. reflexivity.
Qed.

End SemanticInvocation.

(** C8, as stated, fails: in the stock-price loop the first failing
    invocation ends the run with its exception. The second call of the
    model is never attempted, and no final answer is composed or
    printed. *)
Lemma failed_quote_aborts_the_loop :
  let r := Stock.main Scenario.llm_two_calls Scenario.service_down
             Scenario.repr_stub "What is the stock price of Apple?"
             ([], empty_runtime) in
  r.1 = Raise (ValueError "Failed to fetch stock price for AAPL") /\
  invoked r.2.2 = [("get_stock_price", PDict [("ticker", PStr "AAPL")])] /\
  stdout r.2.2 = [] /\
  ~ returns r.1.
Proof.
  intros r.
  assert (Hr : r = (Raise (ValueError "Failed to fetch stock price for AAPL"),
                    ([Langchain.HumanMessage "What is the stock price of Apple?";
                      Langchain.AIMessage EmptyString Scenario.two_calls],
                     mkRuntime [] []
                       [("get_stock_price", PDict [("ticker", PStr "AAPL")])] [])))
    by reflexivity.
  rewrite Hr. simpl. repeat (split; [reflexivity|]).
  intros [a Ha]. discriminate.
Qed.

(** C8, amended. In the flat driver, which invokes the one selected tool
    inside [try ... except ValueError], a ValueError of the invocation is
    caught: the driver prints the error and returns. In the stock-price
    loop invocations are not guarded. While they return, each adds its
    tool message to the transcript in call order, and after the last one
    the model is asked for the final answer on the whole transcript. The
    first invocation that raises ends the run with its exception: the
    calls after it are not invoked and no final answer is produced. *)
Theorem invocation_failure_caught_flat_uncaught_loop :
  (forall (embed : string -> vec) (llm : string -> string)
          (json_loads : string -> outcome pyval)
          (namespace : gmap string (pyval -> outcome string))
          query st tool_name rest st1 args tool msg,
     Semantic.select_tool embed query 1 st = (Ok (tool_name :: rest), st1) ->
     tool_name <> EmptyString ->
     Semantic.determine_parameters llm json_loads query tool_name = Ok args ->
     namespace !! tool_name = Some tool ->
     tool (PDict args) = Raise (ValueError msg) ->
     Semantic.main embed llm json_loads namespace query st =
     (Ok tt,
      (st1.1,
       mkRuntime (ndarrays st1.2) (embed_calls st1.2)
         (invoked st1.2 ++ [(tool_name, PDict args)])
         (stdout st1.2 ++ ["Error invoking tool '" +:+ tool_name +:+ "': "
                           +:+ msg])))) /\
  (forall (llm_with_tools : list Langchain.message -> string * list Langchain.tool_call)
          (requests_get : string -> Z * outcome pyval) (repr : pyval -> string)
          question st,
     let invoke := Stock.invoke requests_get repr in
     let ai_msg := llm_with_tools [Langchain.HumanMessage question] in
     let st1 := ([Langchain.HumanMessage question;
                  Langchain.AIMessage ai_msg.1 ai_msg.2], st.2) in
     (Forall (fun tc => returns (invoke tc)) ai_msg.2 ->
      let st2 := stock_steps_done invoke repr ai_msg.2 st1 in
      Stock.main llm_with_tools requests_get repr question st
      = (Ok tt,
         (st2.1,
          mkRuntime (ndarrays st2.2) (embed_calls st2.2) (invoked st2.2)
            (stdout st2.2 ++ [(llm_with_tools st2.1).1]))) /\
      length st2.1 = (2 + length ai_msg.2)%nat) /\
     (forall done tc rest e,
        ai_msg.2 = done ++ tc :: rest ->
        Forall (fun tc => returns (invoke tc)) done ->
        invoke tc = Raise e ->
        let st2 := stock_step_failed tc (stock_steps_done invoke repr done st1) in
        Stock.main llm_with_tools requests_get repr question st = (Raise e, st2) /\
        invoked st2.2 =
          invoked st.2 ++
          map (fun tc => ("get_stock_price", Langchain.args tc)) (done ++ [tc]) /\
        length st2.1 = (2 + length done)%nat)).
Proof.
  split.
  - intros embed llm json_loads namespace query st tool_name rest st1 args tool
      msg Hsel Hne Hargs Hns Htool.
    by apply (semantic_invocation_error_caught embed llm json_loads namespace
                query st tool_name rest st1 args tool (ValueError msg)).
  - intros llm_with_tools requests_get repr question st invoke ai_msg st1.
    subst invoke. split.
    + intros Hall st2. split.
      * rewrite stock_main_eq. subst st2 st1 ai_msg.
        cbv zeta. rewrite (stock_loop_ok _ _ _ _ Hall). reflexivity.
      * subst st2. by rewrite stock_steps_done_length.
    + intros done tc rest e Hcalls Hall Htc st2. split; [|split].
      * pose proof (stock_loop_raise requests_get repr done tc rest e st1
                      Hall Htc) as Hloop.
        rewrite <- Hcalls in Hloop.
        rewrite stock_main_eq. subst st2 st1 ai_msg. cbv zeta.
        rewrite Hloop. reflexivity.
      * subst st2. simpl. rewrite stock_steps_done_invoked by exact Hall.
        rewrite map_app. simpl. by rewrite app_assoc.
      * subst st2. simpl. by rewrite stock_steps_done_length.
Qed.

Lemma invocation_failure_caught_flat_uncaught_loop_witness :
  (let st := (Scenario.flat_registry Scenario.stub_embed Semantic.tool_descriptions,
              empty_runtime) in
   (Semantic.main Scenario.stub_embed Scenario.llm_expression Json.loads
      Scenario.wolfram_refused Scenario.user_query st).1 = Ok tt) /\
  (Stock.main Scenario.llm_two_calls Scenario.service_down Scenario.repr_stub
     "What is the stock price of Apple?" ([], empty_runtime)).1
  = Raise (ValueError "Failed to fetch stock price for AAPL").
Proof.
  destruct invocation_failure_caught_flat_uncaught_loop as [Hflat Hloop].
  split.
  - intros st.
    erewrite (Hflat Scenario.stub_embed Scenario.llm_expression Json.loads
                Scenario.wolfram_refused Scenario.user_query st
                "query_wolfram_alpha" [] _
                [("expression", PStr "2x + 3 = 7")] _
                "Wolfram Alpha API Error: 403 - Forbidden"
                scenario_flat_select);
      [reflexivity | discriminate | reflexivity | reflexivity | reflexivity].
  - destruct (Hloop Scenario.llm_two_calls Scenario.service_down
                Scenario.repr_stub "What is the stock price of Apple?"
                ([], empty_runtime)) as [_ Hraise].
    destruct (Hraise [] (Langchain.mkToolCall "get_stock_price"
                           (PDict [("ticker", PStr "AAPL")]) "call_1")
                [Langchain.mkToolCall "get_stock_price"
                   (PDict [("ticker", PStr "MSFT")]) "call_2"]
                (ValueError "Failed to fetch stock price for AAPL"))
      as (Hmain & _ & _); [reflexivity | constructor | reflexivity |].
    by rewrite Hmain.
Defined.

(** ** What the index holds after the build cells *)

Section FlatBuild.

Variable embed : string -> vec.

Lemma embed_descriptions_eq items acc rt :
  Semantic.embed_descriptions embed items acc rt =
  (Ok (acc.1 ++ map (fun item => embed item.2) items, acc.2 ++ map fst items),
   mkRuntime (ndarrays rt) (embed_calls rt ++ map snd items) (invoked rt)
     (stdout rt)).
Proof.
  revert acc rt. induction items as [|[tool_name description] items IH];
    intros acc rt; simpl.
  - destruct acc, rt. unfold mret, M_ret. simpl. by rewrite !app_nil_r.
  - unfold mbind, M_bind, embed_call. rewrite IH. simpl.
    by rewrite <- !app_assoc.
Qed.

(** Cells 5 to 9: the vectors added to the index are the embeddings as
    the model returned them; the normalised copy made by cell 7 stays in
    an array that has no name. *)
Lemma flat_build_eq items rt :
  items <> [] ->
  Semantic.build embed items rt =
  (Ok (Scenario.flat_registry embed items), Scenario.flat_runtime embed items rt).
Proof.
  intros Hne. destruct items as [|[tool_name description] items]; [done|].
  unfold Semantic.build, mbind at 1, M_bind at 1.
  rewrite embed_descriptions_eq.
  unfold mbind, M_bind, lift, np_array, normalize_L2, np_read, modify, mret,
    M_ret, set_ndarrays; simpl.
  rewrite lookup_fresh. unfold add; simpl. rewrite Nat.eqb_refl.
  unfold Scenario.flat_registry, Scenario.flat_runtime; simpl.
  rewrite alter_fresh, <- app_assoc. reflexivity.
Qed.

Lemma flat_build_empty rt :
  (Semantic.build embed [] rt).1 = Raise IndexError.
Proof. reflexivity. Qed.

End FlatBuild.

Lemma norm_3_4 : norm_L2 [3; 4]%R = 5%R.
Proof.
  unfold norm_L2, fvec_norm_L2sqr; simpl.
  replace (3 * 3 + (4 * 4 + 0))%R with (5 * 5)%R by lra.
  apply sqrt_square. lra.
Qed.

(** C1 in the flat notebook: with an embedding model that returns the
    vector (3, 4), the build cells end normally and every vector stored in
    the index is (3, 4), of norm 5. *)
Theorem flat_index_holds_unnormalised_vectors :
  let g := Scenario.flat_registry Scenario.embed_34 Semantic.tool_descriptions in
  (Semantic.build Scenario.embed_34 Semantic.tool_descriptions empty_runtime).1
    = Ok g /\
  xb (Semantic.index g) = [[3; 4]; [3; 4]; [3; 4]]%R /\
  Forall (fun v => norm_L2 v = 5%R /\ norm_L2 v <> 1%R) (xb (Semantic.index g)).
Proof.
  intros g. split; [|split].
  - by rewrite flat_build_eq.
  - reflexivity.
  - change (xb (Semantic.index g)) with [[3; 4]; [3; 4]; [3; 4]]%R.
    repeat constructor; rewrite norm_3_4; lra.
Qed.

Section HierarchicalBuild.

Variable embed : string -> vec.

Lemma embed_groups_eq items acc rt :
  Hierarchical.embed_groups embed items acc rt =
  (Ok (acc.1 ++ map fst items,
       acc.2 ++ map (fun item => embed (Hierarchical.description item.2)) items),
   mkRuntime (ndarrays rt)
     (embed_calls rt ++ map (fun item => Hierarchical.description item.2) items)
     (invoked rt) (stdout rt)).
Proof.
  revert acc rt. induction items as [|[group_name group_info] items IH];
    intros acc rt; simpl.
  - destruct acc, rt. unfold mret, M_ret. simpl. by rewrite !app_nil_r.
  - unfold mbind, M_bind, embed_call. rewrite IH. simpl.
    by rewrite <- !app_assoc.
Qed.

(** Normalising a fresh array and adding it to a new index: the index
    holds the normalised rows. *)
Lemma normalised_index_eq rows rt :
  rows <> [] ->
  (group_embeddings_np ← np_array rows;
   normalize_L2 group_embeddings_np;;
   x ← np_read group_embeddings_np;
   first ← lift (py_index x 0);
   lift (add (mkIndex (length first) []) x)) rt =
  (Ok (mkIndex (shape1 rows) (map fvec_renorm_L2 rows)),
   set_ndarrays (fun h => h ++ [map fvec_renorm_L2 rows]) rt).
Proof.
  intros Hne. destruct rows as [|row rows]; [done|].
  unfold mbind, M_bind, lift, np_array, normalize_L2, np_read, modify, mret,
    M_ret, set_ndarrays; simpl.
  rewrite alter_fresh, lookup_fresh. simpl.
  unfold add; simpl. rewrite Nat.eqb_refl, renorm_length. reflexivity.
Qed.

Lemma build_group_index_eq group_embeddings rt :
  group_embeddings <> [] ->
  Hierarchical.build_group_index group_embeddings rt =
  (Ok (mkIndex (shape1 group_embeddings) (map fvec_renorm_L2 group_embeddings)),
   set_ndarrays (fun h => h ++ [map fvec_renorm_L2 group_embeddings]) rt).
Proof. apply normalised_index_eq. Qed.

Lemma describe_tools_functions tools acc descriptions functions :
  Hierarchical.describe_tools tools acc = Ok (descriptions, functions) ->
  functions = acc.2 ++ tools /\
  length descriptions = (length acc.1 + length tools)%nat.
Proof.
  revert acc. induction tools as [|t tools IH]; intros acc; simpl.
  - intros [= ->]. simpl. by rewrite app_nil_r, Nat.add_0_r.
  - destruct (Hierarchical.doc t); [|discriminate].
    intros H. apply IH in H as [-> ->]. simpl.
    rewrite <- app_assoc, length_app. simpl. split; [reflexivity|lia].
Qed.

Lemma embed_texts_eq texts rt :
  Hierarchical.embed_texts embed texts rt =
  (Ok (map embed texts),
   mkRuntime (ndarrays rt) (embed_calls rt ++ texts) (invoked rt) (stdout rt)).
Proof.
  revert rt. induction texts as [|t texts IH]; intros rt; simpl.
  - destruct rt. unfold mret, M_ret. simpl. by rewrite app_nil_r.
  - unfold mbind, M_bind, embed_call, mret, M_ret. rewrite IH. simpl.
    by rewrite <- app_assoc.
Qed.

(** Every entry of [tool_indices] comes from a group that has tools: its
    [functions] are that group's tools, in order, and its index holds
    one normalised embedding per tool. *)
Lemma build_tool_indices_entries items tool_indices0 rt tool_indices rt' :
  Hierarchical.build_tool_indices embed items tool_indices0 rt
    = (Ok tool_indices, rt') ->
  forall group_name info,
    tool_indices !! group_name = Some info ->
    tool_indices0 !! group_name = Some info \/
    exists group_info descriptions,
      (group_name, group_info) ∈ items /\
      Hierarchical.tools group_info <> [] /\
      Hierarchical.functions info = Hierarchical.tools group_info /\
      length descriptions = length (Hierarchical.tools group_info) /\
      Hierarchical.index info =
        mkIndex (shape1 (map embed descriptions))
          (map fvec_renorm_L2 (map embed descriptions)).
Proof.
  revert tool_indices0 rt.
  induction items as [|[gname ginfo] items IH]; intros ti0 rt; simpl.
  - intros [= <- <-] group_name info H. by left.
  - unfold mbind at 1, M_bind at 1, lift at 1.
    destruct (Hierarchical.describe_tools _ _) as [[descriptions functions]|e]
      eqn:Hdesc; [|discriminate].
    apply describe_tools_functions in Hdesc as [Hf Hlen]. simpl in Hf, Hlen.
    destruct descriptions as [|description descriptions].
    + intros Hbuild group_name info Hinfo.
      destruct (IH _ _ Hbuild _ _ Hinfo) as [H0|(gi & ds & Hin & Hrest)];
        [by left|].
      right. exists gi, ds. split; [by apply list_elem_of_further|exact Hrest].
    + unfold mbind at 1, M_bind at 1. rewrite embed_texts_eq.
      unfold mbind, M_bind, lift, np_array, normalize_L2, np_read, modify,
        mret, M_ret, set_ndarrays; simpl.
      rewrite alter_fresh, lookup_fresh. simpl.
      unfold add; simpl. rewrite Nat.eqb_refl, renorm_length.
      intros Hbuild group_name info Hinfo.
      destruct (IH _ _ Hbuild _ _ Hinfo) as [H0|(gi & ds & Hin & Hrest)].
      * destruct (decide (gname = group_name)) as [->|Hneq].
        -- rewrite lookup_insert_eq in H0. injection H0 as <-.
           right. exists ginfo, (description :: descriptions).
           split; [apply list_elem_of_here|]. simpl.
           split; [intros Hnil; rewrite Hnil in Hlen; discriminate|].
           split; [exact Hf|]. split; [exact Hlen|]. reflexivity.
        -- rewrite lookup_insert_ne in H0 by exact Hneq. by left.
      * right. exists gi, ds. split; [by apply list_elem_of_further|exact Hrest].
Qed.

(** One round of the outer loop of cell 11. *)
Lemma build_tool_indices_cons group_name group_info rest tool_indices rt
  description descriptions functions :
  Hierarchical.describe_tools (Hierarchical.tools group_info) ([], [])
    = Ok (description :: descriptions, functions) ->
  Hierarchical.build_tool_indices embed ((group_name, group_info) :: rest)
    tool_indices rt =
  Hierarchical.build_tool_indices embed rest
    (<[group_name :=
         Hierarchical.mkToolInfo
           (mkIndex (shape1 (map embed (description :: descriptions)))
              (map fvec_renorm_L2 (map embed (description :: descriptions))))
           functions (length (ndarrays rt))]> tool_indices)
    (mkRuntime
       (ndarrays rt ++
        [map fvec_renorm_L2 (map embed (description :: descriptions))])
       (embed_calls rt ++ description :: descriptions) (invoked rt) (stdout rt)).
Proof.
  intros Hdesc. simpl.
  unfold mbind at 1, M_bind at 1, lift at 1. rewrite Hdesc.
  unfold mbind at 1, M_bind at 1. rewrite embed_texts_eq.
  unfold mbind, M_bind, lift, np_array, normalize_L2, np_read, modify,
    mret, M_ret, set_ndarrays; simpl.
  rewrite alter_fresh, lookup_fresh. simpl.
  unfold add; simpl. rewrite Nat.eqb_refl, renorm_length. reflexivity.
Qed.

Lemma build_tool_indices_skip group_name group_info rest tool_indices rt :
  Hierarchical.tools group_info = [] ->
  Hierarchical.build_tool_indices embed ((group_name, group_info) :: rest)
    tool_indices rt =
  Hierarchical.build_tool_indices embed rest tool_indices rt.
Proof. intros Hnil. simpl. rewrite Hnil. reflexivity. Qed.

(** A group without tools gets no entry. *)
Lemma build_tool_indices_skips_empty items rt tool_indices rt' group_name :
  Hierarchical.build_tool_indices embed items ∅ rt = (Ok tool_indices, rt') ->
  (forall group_info,
     (group_name, group_info) ∈ items -> Hierarchical.tools group_info = []) ->
  tool_indices !! group_name = None.
Proof.
  intros Hbuild Hempty.
  destruct (tool_indices !! group_name) as [info|] eqn:Hinfo; [|reflexivity].
  destruct (build_tool_indices_entries _ _ _ _ _ Hbuild _ _ Hinfo)
    as [H0|(gi & ds & Hin & Hne & _)].
  - by rewrite lookup_empty in H0.
  - by apply Hempty in Hin.
Qed.

(** Cells 9 to 11. *)
Lemma hier_build_eq tool_groups rt :
  tool_groups <> [] ->
  Hierarchical.build embed tool_groups rt =
  let group_embeddings :=
    map (fun item => embed (Hierarchical.description item.2)) tool_groups in
  let rt1 :=
    mkRuntime (ndarrays rt ++ [map fvec_renorm_L2 group_embeddings])
      (embed_calls rt ++
       map (fun item => Hierarchical.description item.2) tool_groups)
      (invoked rt) (stdout rt) in
  match Hierarchical.build_tool_indices embed tool_groups ∅ rt1 with
  | (Ok tool_indices, rt2) =>
      (Ok (Hierarchical.mkGlobals tool_groups (map fst tool_groups)
             group_embeddings
             (mkIndex (shape1 group_embeddings)
                (map fvec_renorm_L2 group_embeddings))
             tool_indices), rt2)
  | (Raise e, rt2) => (Raise e, rt2)
  end.
Proof.
  intros Hne. unfold Hierarchical.build, mbind at 1, M_bind at 1.
  rewrite embed_groups_eq. simpl.
  unfold mbind at 1, M_bind at 1.
  rewrite build_group_index_eq by (destruct tool_groups; [done|discriminate]).
  unfold mbind, M_bind, mret, M_ret, set_ndarrays. simpl.
  destruct (Hierarchical.build_tool_indices _ _ _ _) as [[ti|e] rt2]; reflexivity.
Qed.

End HierarchicalBuild.

(** ** The hierarchical notebook on the stub embedding model *)

Lemma scenario_hier_build :
  Hierarchical.build Scenario.stub_embed Scenario.documented_groups empty_runtime
  = (Ok Scenario.hier_registry, Scenario.hier_runtime).
Proof.
  rewrite hier_build_eq by discriminate. cbv zeta.
  change Scenario.documented_groups with
    [("Computation",
      Hierarchical.mkGroup
        "Tools related to mathematical computations and data analysis."
        [Scenario.documented_wolfram_alpha]);
     ("Automation",
      Hierarchical.mkGroup
        "Tools that automate workflows and integrate different services."
        [Hierarchical.trigger_zapier_webhook]);
     ("Communication",
      Hierarchical.mkGroup "Tools that facilitate communication and messaging."
        [Hierarchical.send_slack_message])].
  rewrite (build_tool_indices_cons _ _ _ _ _ _
             "Query Wolfram Alpha to compute mathematical expressions or retrieve information."
             [] [Scenario.documented_wolfram_alpha]) by reflexivity.
  rewrite (build_tool_indices_cons _ _ _ _ _ _
             "Trigger a Zapier webhook to execute a predefined Zap."
             [] [Hierarchical.trigger_zapier_webhook]) by reflexivity.
  rewrite (build_tool_indices_cons _ _ _ _ _ _
             "Send a message to a specified Slack channel."
             [] [Hierarchical.send_slack_message]) by reflexivity.
  reflexivity.
Qed.

Lemma scenario_cell4_build :
  Hierarchical.build Scenario.stub_embed Hierarchical.tool_groups_cell4 empty_runtime
  = (Ok Scenario.empty_groups_registry, Scenario.empty_groups_runtime).
Proof.
  rewrite hier_build_eq by discriminate. reflexivity.
Qed.

Lemma renorm_unit_fixed v :
  fvec_norm_L2sqr v = 1%R -> fvec_renorm_L2 v = v.
Proof.
  intros H1. unfold fvec_renorm_L2. rewrite H1, sqrt_1.
  destruct (Rlt_dec 0 1) as [_|Hn]; [|exfalso; apply Hn; lra].
  induction v as [|x v IH]; simpl; [reflexivity|].
  f_equal; [lra|]. clear H1 IH.
  induction v as [|y v IH]; simpl; [reflexivity|]. f_equal; [lra|exact IH].
Qed.

Lemma scenario_group_vectors :
  map fvec_renorm_L2 Scenario.group_vectors = Scenario.group_vectors.
Proof.
  unfold Scenario.group_vectors; simpl.
  rewrite !renorm_unit_fixed; [reflexivity| | |];
    unfold fvec_norm_L2sqr; simpl; lra.
Qed.

(** [select_group] for the mathematics query, on any state whose group
    index and group names are those of the scenario. *)
Lemma scenario_select_group g rt k :
  Hierarchical.group_index g = mkIndex 2 (map fvec_renorm_L2 Scenario.group_vectors) ->
  Hierarchical.group_names g = ["Computation"; "Automation"; "Communication"] ->
  1 <= k ->
  Hierarchical.select_group Scenario.stub_embed Scenario.user_query k (g, rt) =
  (comprehension (py_index ["Computation"; "Automation"; "Communication"])
     (take (Z.to_nat k) [0; 1; 2] ++ replicate (Z.to_nat k - 3) (-1)),
   after_query Scenario.stub_embed Scenario.user_query (g, rt)).
Proof.
  intros Hindex Hnames Hk. rewrite scenario_group_vectors in Hindex.
  rewrite select_group_eq. f_equal.
  change (Scenario.stub_embed Scenario.user_query) with [1; 0]%R.
  rewrite renorm_e1. simpl. rewrite Hindex, Hnames.
  rewrite search_ok by (reflexivity || lia).
  unfold Scenario.group_vectors. simpl xb. rewrite scenario_labels. reflexivity.
Qed.

(** ** Mapping labels back to names and tools *)

Lemma py_index_elem {A} (l : list A) (i : Z) (a : A) :
  py_index l i = Ok a -> a ∈ l.
Proof.
  unfold py_index.
  destruct (_ && _); [|discriminate].
  destruct (l !! _) as [a'|] eqn:Hl; [|discriminate].
  intros [= <-]. eapply list_elem_of_lookup_2, Hl.
Qed.

Lemma py_index_returns {A} (l : list A) (i : Z) :
  - Z.of_nat (length l) <= i < Z.of_nat (length l) -> returns (py_index l i).
Proof.
  intros Hi. unfold py_index.
  set (j := if i <? 0 then i + Z.of_nat (length l) else i).
  assert (Hj : 0 <= j < Z.of_nat (length l)).
  { subst j. destruct (i <? 0) eqn:E;
      [apply Z.ltb_lt in E | apply Z.ltb_ge in E]; lia. }
  replace ((0 <=? j) && (j <? Z.of_nat (length l))) with true
    by (symmetry; apply andb_true_iff; split;
        [apply Z.leb_le | apply Z.ltb_lt]; lia).
  destruct (l !! Z.to_nat j) as [a|] eqn:Hl; [by exists a|].
  apply lookup_ge_None in Hl. lia.
Qed.

Lemma comprehension_length {A B} (f : A -> outcome B) xs ys :
  comprehension f xs = Ok ys -> length ys = length xs.
Proof.
  revert ys. induction xs as [|x xs IH]; intros ys; simpl.
  - by intros [= <-].
  - destruct (f x); [|discriminate].
    destruct (comprehension f xs); [|discriminate].
    intros [= <-]. simpl. f_equal. by apply IH.
Qed.

Lemma comprehension_elem {A B} (f : A -> outcome B) xs ys b :
  comprehension f xs = Ok ys -> b ∈ ys -> exists x, x ∈ xs /\ f x = Ok b.
Proof.
  revert ys. induction xs as [|x xs IH]; intros ys; simpl.
  - intros [= <-] Hb. by apply elem_of_nil in Hb.
  - destruct (f x) as [b'|] eqn:Hx; [|discriminate].
    destruct (comprehension f xs) as [bs|]; [|discriminate].
    intros [= <-] Hb. apply elem_of_cons in Hb as [->|Hb].
    + exists x. split; [apply list_elem_of_here|exact Hx].
    + destruct (IH bs eq_refl Hb) as [x' [Hin Hx']].
      exists x'. split; [by apply list_elem_of_further|exact Hx'].
Qed.

Lemma comprehension_returns {A B} (f : A -> outcome B) xs :
  Forall (fun x => returns (f x)) xs -> returns (comprehension f xs).
Proof.
  induction 1 as [|x xs [b Hb] _ [bs Hbs]]; simpl.
  - by exists [].
  - rewrite Hb, Hbs. by exists (b :: bs).
Qed.

Lemma omap_padding {A} (m : gmap Z A) n :
  m !! (-1) = None -> omap (fun idx => m !! idx) (replicate n (-1)) = [].
Proof. intros H. induction n; simpl; [reflexivity|]. by rewrite H. Qed.

Lemma omap_all_some {A B} (f : A -> option B) xs :
  Forall (fun x => is_Some (f x)) xs -> length (omap f xs) = length xs.
Proof.
  induction 1 as [|x xs [b Hb] _ IH]; simpl; [reflexivity|].
  rewrite Hb. simpl. by f_equal.
Qed.

Section SelectionSizes.

Variable embed : string -> vec.

(** Flat [select_tool], when every position of the index is a key of
    [index_to_tool] and [-1] is not: the filter on the labels removes the
    filling, so the result has [min top_k ntotal] names. *)
Lemma flat_select_tool_length query top_k st :
  length (embed query) = d (Semantic.index st.1) ->
  1 <= top_k ->
  (forall i, (i < ntotal (Semantic.index st.1))%nat ->
             is_Some (Semantic.index_to_tool st.1 !! Z.of_nat i)) ->
  Semantic.index_to_tool st.1 !! (-1) = None ->
  exists names,
    (Semantic.select_tool embed query top_k st).1 = Ok names /\
    length names = (Z.to_nat top_k `min` ntotal (Semantic.index st.1))%nat.
Proof.
  intros Hd Hk Hkeys Hpad. rewrite flat_select_tool_eq.
  rewrite search_ok by (rewrite ?renorm_length; (exact Hd || lia)).
  simpl. eexists. split; [reflexivity|].
  unfold knn_labels. rewrite omap_app, omap_padding, app_nil_r by exact Hpad.
  rewrite omap_all_some.
  - by rewrite length_map, knn_hits_length.
  - apply Forall_forall. intros i Hi.
    apply list_elem_of_fmap in Hi as [h [-> Hh]].
    apply knn_hits_elem in Hh as [v [Hv _]].
    apply Hkeys. unfold ntotal. by apply lookup_lt_Some in Hv.
Qed.

(** [select_group] maps every label back without a filter: with one
    group name per indexed vector, it returns [top_k] names for every
    [top_k >= 1], also when the index holds fewer groups. *)
Lemma select_group_length query top_k st :
  length (embed query) = d (Hierarchical.group_index st.1) ->
  1 <= top_k ->
  length (Hierarchical.group_names st.1) = ntotal (Hierarchical.group_index st.1) ->
  Hierarchical.group_names st.1 <> [] ->
  exists names,
    (Hierarchical.select_group embed query top_k st).1 = Ok names /\
    length names = Z.to_nat top_k.
Proof.
  intros Hd Hk Hlen Hne. rewrite select_group_eq.
  rewrite search_ok by (rewrite ?renorm_length; (exact Hd || lia)).
  simpl.
  destruct (comprehension_returns (py_index (Hierarchical.group_names st.1))
              (knn_labels (xb (Hierarchical.group_index st.1))
                 (fvec_renorm_L2 (embed query)) (Z.to_nat top_k)))
    as [names Hnames].
  - apply Forall_forall. intros i Hi. apply py_index_returns.
    apply knn_labels_range in Hi. unfold ntotal in Hlen. rewrite Hlen.
    assert (0 < length (xb (Hierarchical.group_index st.1)))%nat.
    { rewrite <- Hlen. destruct (Hierarchical.group_names st.1); [done|simpl; lia]. }
    lia.
  - exists names. split; [exact Hnames|].
    apply comprehension_length in Hnames. by rewrite Hnames, knn_labels_length.
Qed.

(** Hierarchical [select_tool] returns tools of the entry it looked up. *)
Lemma hier_select_tool_elem query group_name top_k st selected st' :
  Hierarchical.select_tool embed query group_name top_k st = (Ok selected, st') ->
  exists info,
    Hierarchical.tool_indices st.1 !! group_name = Some info /\
    forall t, t ∈ selected -> t ∈ Hierarchical.functions info.
Proof.
  rewrite hier_select_tool_eq.
  destruct (Hierarchical.tool_indices st.1 !! group_name) as [info|];
    [|discriminate].
  destruct (search _ _ _) as [[D I_]|]; [|discriminate].
  destruct (py_index I_ 0) as [I0|]; [|discriminate].
  intros [= Hsel _]. exists info. split; [reflexivity|].
  intros t Ht. destruct (comprehension_elem _ _ _ _ Hsel Ht) as [i [_ Hi]].
  by apply py_index_elem in Hi.
Qed.

End SelectionSizes.

(** ** The hierarchical driver *)

Section HierarchicalDriver.

Variable embed : string -> vec.
Variable tool_invoke : Hierarchical.tool -> pyval -> outcome string.

Lemma select_group_frame query top_k st :
  registry_unchanged st (Hierarchical.select_group embed query top_k st).2.
Proof. rewrite select_group_eq. apply after_query_unchanged. Qed.

Lemma hier_select_tool_frame query group_name top_k st :
  registry_unchanged st
    (Hierarchical.select_tool embed query group_name top_k st).2.
Proof.
  rewrite hier_select_tool_eq.
  destruct (Hierarchical.tool_indices st.1 !! group_name).
  - apply after_query_unchanged.
  - apply registry_unchanged_refl.
Qed.

(** The driver invokes at most one tool, and it is one of the tools of
    the entry of the group [select_group] ranked first. *)
Lemma hier_main_invocations query st :
  let r := Hierarchical.main embed tool_invoke query st in
  invoked r.2.2 = invoked st.2 \/
  exists selected_group rest st1 info t args,
    Hierarchical.select_group embed query 1 st
      = (Ok (selected_group :: rest), st1) /\
    Hierarchical.tool_indices st.1 !! selected_group = Some info /\
    t ∈ Hierarchical.functions info /\
    invoked r.2.2 = invoked st.2 ++ [(Hierarchical.name t, args)].
Proof.
  intros r. remember r as r' eqn:Hr. subst r. symmetry in Hr.
  unfold Hierarchical.main, mbind at 1, M_bind at 1 in Hr.
  pose proof (select_group_frame query 1 st) as (Hg1 & _ & Hi1 & _).
  destruct (Hierarchical.select_group embed query 1 st)
    as [[[|selected_group rest]|e] st1] eqn:Hgroups; simpl in Hg1, Hi1.
  - left. subst r'. simpl. exact Hi1.
  - unfold mbind at 1, M_bind at 1 in Hr. unfold on_rt at 1, print at 1 in Hr.
    simpl in Hr. unfold mbind at 1, M_bind at 1 in Hr.
    match type of Hr with
    | context [Hierarchical.select_tool _ _ _ _ ?s] => set (st1' := s) in *
    end.
    pose proof (hier_select_tool_frame query selected_group 1 st1')
      as (Hg2 & _ & Hi2 & _).
    destruct (Hierarchical.select_tool embed query selected_group 1 st1')
      as [[[|selected_tool others]|e] st2] eqn:Hsel; simpl in Hg2, Hi2.
    + left. subst r'. simpl. congruence.
    + apply hier_select_tool_elem in Hsel as (info & Hinfo & Hin).
      simpl in Hinfo. rewrite Hg1 in Hinfo.
      unfold mbind at 1, M_bind at 1 in Hr. unfold on_rt at 1, print at 1 in Hr.
      simpl in Hr.
      destruct (Hierarchical.prepare_args selected_tool query) as [args|].
      * right.
        exists selected_group, rest, st1, info, selected_tool, (PDict args).
        split; [reflexivity|]. split; [exact Hinfo|].
        split; [apply Hin, list_elem_of_here|].
        unfold try_except_ValueError, mbind, M_bind, on_rt, invoke_call, print
          in Hr.
        simpl in Hr.
        destruct (tool_invoke selected_tool (PDict args)) as [result|e];
          simpl in Hr.
        -- subst r'. simpl. congruence.
        -- destruct (isinstance_ValueError e); subst r'; simpl; congruence.
      * left. subst r'. simpl. congruence.
    + left. subst r'. simpl. congruence.
  - left. subst r'. simpl. exact Hi1.
Qed.

End HierarchicalDriver.

Lemma build_entries_are_groups embed tool_groups rt0 g rt :
  Hierarchical.build embed tool_groups rt0 = (Ok g, rt) ->
  Hierarchical.tool_groups g = tool_groups /\
  forall group_name info,
    Hierarchical.tool_indices g !! group_name = Some info ->
    exists group_info,
      (group_name, group_info) ∈ tool_groups /\
      Hierarchical.tools group_info <> [] /\
      Hierarchical.functions info = Hierarchical.tools group_info.
Proof.
  destruct tool_groups as [|item items].
  { unfold Hierarchical.build, Hierarchical.build_group_index, mbind, M_bind,
      lift, np_array, normalize_L2, np_read, modify, mret, M_ret. simpl.
    rewrite alter_fresh, lookup_fresh. discriminate. }
  rewrite hier_build_eq by discriminate. cbv zeta.
  destruct (Hierarchical.build_tool_indices _ _ _ _) as [[ti|e] rt2] eqn:Hti;
    [|discriminate].
  intros [= <- <-]. split; [reflexivity|]. simpl.
  intros group_name info Hinfo.
  destruct (build_tool_indices_entries _ _ _ _ _ _ Hti _ _ Hinfo)
    as [H0|(gi & ds & Hin & Hne & Hf & _)].
  - by rewrite lookup_empty in H0.
  - by exists gi.
Qed.

(** C5. After the build cells, [select_tool(query, g)] returns only tools
    of group [g]; and the tool the driver invokes, if any, is a tool of
    the group that [select_group] ranked first for the same query. *)
Theorem hierarchical_selection_stays_in_group
  (embed : string -> vec)
  (tool_invoke : Hierarchical.tool -> pyval -> outcome string)
  (tool_groups : list (string * Hierarchical.group_info))
  (rt0 : runtime) (g : Hierarchical.globals) (rt : runtime) :
  Hierarchical.build embed tool_groups rt0 = (Ok g, rt) ->
  (forall query group_name top_k rt1 selected st',
     Hierarchical.select_tool embed query group_name top_k (g, rt1)
       = (Ok selected, st') ->
     exists group_info,
       (group_name, group_info) ∈ tool_groups /\
       forall t, t ∈ selected -> t ∈ Hierarchical.tools group_info) /\
  (forall query rt1,
     let r := Hierarchical.main embed tool_invoke query (g, rt1) in
     invoked r.2.2 = invoked rt1 \/
     exists selected_group rest st1 group_info t args,
       Hierarchical.select_group embed query 1 (g, rt1)
         = (Ok (selected_group :: rest), st1) /\
       (selected_group, group_info) ∈ tool_groups /\
       t ∈ Hierarchical.tools group_info /\
       invoked r.2.2 = invoked rt1 ++ [(Hierarchical.name t, args)]).
Proof.
  intros Hbuild. apply build_entries_are_groups in Hbuild as [_ Hentries].
  split.
  - intros query group_name top_k rt1 selected st' Hsel.
    apply hier_select_tool_elem in Hsel as (info & Hinfo & Hin).
    destruct (Hentries _ _ Hinfo) as (gi & Hgi & _ & Hf).
    exists gi. split; [exact Hgi|]. intros t Ht. rewrite <- Hf. by apply Hin.
  - intros query rt1 r.
    destruct (hier_main_invocations embed tool_invoke query (g, rt1))
      as [Hsame|(sg & rest & st1 & info & t & args & Hsg & Hinfo & Ht & Hinv)].
    + by left.
    + right. destruct (Hentries _ _ Hinfo) as (gi & Hgi & _ & Hf).
      exists sg, rest, st1, gi, t, args.
      split; [exact Hsg|]. split; [exact Hgi|]. split; [by rewrite <- Hf|].
      exact Hinv.
Qed.

Lemma scenario_single_labels v q k :
  knn_labels [v] q (S k) = 0 :: replicate k (-1).
Proof. unfold knn_labels, knn_hits, rank. simpl. by rewrite take_nil, Nat.sub_0_r. Qed.

Lemma single_tool_padding {A} (t : A) k :
  comprehension (py_index [t])
    (filter (fun idx => idx < 1) (replicate k (-1)))
  = Ok (replicate k t).
Proof.
  induction k as [|k IH]; [reflexivity|].
  change (replicate (S k) (-1)) with (-1 :: replicate k (-1)).
  rewrite filter_cons_True by (simpl; lia).
  change (comprehension (py_index [t]) (-1 :: ?l))
    with (match comprehension (py_index [t]) l with
          | Ok bs => Ok (t :: bs)
          | Raise e => Raise e
          end).
  by rewrite IH.
Qed.

(** In the scenario, the Computation group has one tool: asking for one
    tool returns it, asking for two returns it twice. *)
Lemma scenario_hier_select_tool k :
  Hierarchical.select_tool Scenario.stub_embed Scenario.user_query "Computation"
    (Z.of_nat (S k)) (Scenario.hier_registry, Scenario.hier_runtime) =
  (Ok (replicate (S k) Scenario.documented_wolfram_alpha),
   after_query Scenario.stub_embed Scenario.user_query
     (Scenario.hier_registry, Scenario.hier_runtime)).
Proof.
  rewrite hier_select_tool_eq.
  change (Hierarchical.tool_indices (Scenario.hier_registry, Scenario.hier_runtime).1
            !! "Computation")
    with (Some (Scenario.one_tool_entry Scenario.documented_wolfram_alpha
                  [1; 0]%R 1%nat)).
  f_equal.
  change (Scenario.stub_embed Scenario.user_query) with [1; 0]%R.
  unfold Scenario.one_tool_entry. simpl map. rewrite renorm_e1.
  rewrite search_ok by (reflexivity || lia).
  rewrite Nat2Z.id. simpl xb. rewrite scenario_single_labels.
  change (py_index [?x] 0) with (Ok x).
  cbn [Hierarchical.functions length]. change (Z.of_nat 1) with 1.
  rewrite filter_cons_True by (simpl; lia).
  change (comprehension (py_index [?t]) (0 :: ?l))
    with (match comprehension (py_index [t]) l with
          | Ok bs => Ok (t :: bs)
          | Raise e => Raise e
          end).
  by rewrite single_tool_padding.
Qed.

Lemma hierarchical_selection_stays_in_group_witness :
  exists group_info,
    ("Computation", group_info) ∈ Scenario.documented_groups /\
    forall t, t ∈ [Scenario.documented_wolfram_alpha] ->
              t ∈ Hierarchical.tools group_info.
Proof.
  destruct (hierarchical_selection_stays_in_group Scenario.stub_embed
              Scenario.tool_answers Scenario.documented_groups empty_runtime
              Scenario.hier_registry Scenario.hier_runtime scenario_hier_build)
    as [Hsel _].
  exact (Hsel Scenario.user_query "Computation" 1 Scenario.hier_runtime _ _
           (scenario_hier_select_tool 0)).
Defined.

(** ** Asking for more results than the index holds *)

Lemma scenario_flat_select_k k :
  1 <= k ->
  let st := (Scenario.flat_registry Scenario.stub_embed Semantic.tool_descriptions,
             empty_runtime) in
  (Semantic.select_tool Scenario.stub_embed Scenario.user_query k st).1 =
  Ok (omap (fun idx => Semantic.index_to_tool st.1 !! idx)
        (take (Z.to_nat k) [0; 1; 2] ++ replicate (Z.to_nat k - 3) (-1))).
Proof.
  intros Hk st. rewrite flat_select_tool_eq. simpl.
  change (Scenario.stub_embed Scenario.user_query) with [1; 0]%R.
  rewrite renorm_e1.
  rewrite search_ok by (reflexivity || lia).
  change (xb (Semantic.index st.1)) with [[1; 0]; [0; 1]; [-1; 0]]%R.
  rewrite scenario_labels. reflexivity.
Qed.

(** C4 on the code: with three groups indexed, [select_group] asked for
    four returns four names, the last being the last group again (the
    filling label [-1] read as a Python index); hierarchical
    [select_tool] asked for two tools of a one-tool group returns that
    tool twice, its guard [idx < len(functions)] letting [-1] through.
    Flat [select_tool], whose guard is [idx in index_to_tool], returns
    the three tools. *)
Theorem selection_beyond_index_size :
  (Hierarchical.select_group Scenario.stub_embed Scenario.user_query 4
     (Scenario.hier_registry, Scenario.hier_runtime)).1
  = Ok ["Computation"; "Automation"; "Communication"; "Communication"] /\
  (Hierarchical.select_tool Scenario.stub_embed Scenario.user_query
     "Computation" 2 (Scenario.hier_registry, Scenario.hier_runtime)).1
  = Ok [Scenario.documented_wolfram_alpha; Scenario.documented_wolfram_alpha] /\
  (Semantic.select_tool Scenario.stub_embed Scenario.user_query 4
     (Scenario.flat_registry Scenario.stub_embed Semantic.tool_descriptions,
      empty_runtime)).1
  = Ok ["query_wolfram_alpha"; "trigger_zapier_webhook"; "send_slack_message"].
Proof.
  split; [|split].
  - rewrite scenario_select_group by (reflexivity || lia). reflexivity.
  - change 2 with (Z.of_nat 2). by rewrite scenario_hier_select_tool.
  - rewrite scenario_flat_select_k by lia. reflexivity.
Qed.

(** ** A group without tools *)

Lemma hier_select_tool_empty_group embed tool_groups rt0 g rt group_name
  query top_k rt1 :
  Hierarchical.build embed tool_groups rt0 = (Ok g, rt) ->
  (forall group_info,
     (group_name, group_info) ∈ tool_groups ->
     Hierarchical.tools group_info = []) ->
  Hierarchical.select_tool embed query group_name top_k (g, rt1)
  = (Raise (KeyError group_name), (g, rt1)).
Proof.
  intros Hbuild Hempty. rewrite hier_select_tool_eq. simpl.
  apply build_entries_are_groups in Hbuild as [_ Hentries].
  destruct (Hierarchical.tool_indices g !! group_name) as [info|] eqn:Hinfo;
    [|reflexivity].
  destruct (Hentries _ _ Hinfo) as (gi & Hgi & Hne & _).
  by apply Hempty in Hgi.
Qed.

(** C6 on the code: with the groups of cell 4, which have no tools, the
    build cells end normally and leave [tool_indices] empty; selecting a
    tool in the group Computation then raises KeyError, and so does the
    driver, which [select_group] sends to that group. *)
Theorem select_tool_on_empty_group_raises :
  let st := (Scenario.empty_groups_registry, Scenario.empty_groups_runtime) in
  Hierarchical.build Scenario.stub_embed Hierarchical.tool_groups_cell4
    empty_runtime = (Ok st.1, st.2) /\
  (Hierarchical.select_tool Scenario.stub_embed Scenario.user_query
     "Computation" 1 st).1 = Raise (KeyError "Computation") /\
  (Hierarchical.main Scenario.stub_embed Scenario.tool_answers
     Scenario.user_query st).1 = Raise (KeyError "Computation").
Proof.
  intros st. split; [exact scenario_cell4_build|]. split.
  - by rewrite hier_select_tool_eq.
  - unfold Hierarchical.main, mbind at 1, M_bind at 1.
    subst st. rewrite scenario_select_group by (reflexivity || lia).
    simpl. unfold mbind at 1, M_bind at 1, on_rt at 1, print at 1. simpl.
    unfold mbind at 1, M_bind at 1. by rewrite hier_select_tool_eq.
Qed.

(** ** Norms in the hierarchical notebook *)

Lemma renormed_rows_unit {A} (f : A -> vec) (xs : list A) :
  (forall x, (0 < fvec_norm_L2sqr (f x))%R) ->
  Forall (fun v => norm_L2 v = 1%R) (map fvec_renorm_L2 (map f xs)).
Proof.
  intros Hpos. apply Forall_forall. intros v Hv.
  apply list_elem_of_fmap in Hv as [w [-> Hw]].
  apply list_elem_of_fmap in Hw as [x [-> _]].
  apply renorm_unit, Hpos.
Qed.

(** The hierarchical notebook normalises the array it adds: when the
    embedding model returns no zero vector, every vector of the group
    index and of every per-group index has norm 1, and so has the vector
    each selection function searches for. *)
Lemma hierarchical_indexes_hold_unit_vectors embed tool_groups rt0 g rt :
  Hierarchical.build embed tool_groups rt0 = (Ok g, rt) ->
  (forall text, (0 < fvec_norm_L2sqr (embed text))%R) ->
  Forall (fun v => norm_L2 v = 1%R) (xb (Hierarchical.group_index g)) /\
  (forall group_name info,
     Hierarchical.tool_indices g !! group_name = Some info ->
     Forall (fun v => norm_L2 v = 1%R) (xb (Hierarchical.index info))) /\
  (forall query, norm_L2 (fvec_renorm_L2 (embed query)) = 1%R).
Proof.
  intros Hbuild Hpos.
  destruct tool_groups as [|item items].
  { unfold Hierarchical.build, Hierarchical.build_group_index, mbind, M_bind,
      lift, np_array, normalize_L2, np_read, modify, mret, M_ret in Hbuild.
    simpl in Hbuild. rewrite alter_fresh, lookup_fresh in Hbuild.
    discriminate. }
  rewrite hier_build_eq in Hbuild by discriminate. cbv zeta in Hbuild.
  destruct (Hierarchical.build_tool_indices _ _ _ _) as [[ti|e] rt2] eqn:Hti;
    [|discriminate].
  injection Hbuild as <- <-.
  cbn [Hierarchical.group_index Hierarchical.tool_indices xb]. split; [|split].
  - apply (renormed_rows_unit
             (fun it : string * Hierarchical.group_info =>
                embed (Hierarchical.description it.2)) (item :: items)).
    intros x. apply Hpos.
  - intros group_name info Hinfo.
    destruct (build_tool_indices_entries _ _ _ _ _ _ Hti _ _ Hinfo)
      as [H0|(gi & ds & _ & _ & _ & _ & Hindex)].
    + by rewrite lookup_empty in H0.
    + rewrite Hindex. simpl. by apply renormed_rows_unit.
  - intros query. apply renorm_unit, Hpos.
Qed.

(** Flat [select_tool] returns a list, possibly empty, whenever the query
    has the dimension of the index and [top_k >= 1]. *)
Lemma flat_select_tool_returns embed query top_k st :
  length (embed query) = d (Semantic.index st.1) ->
  1 <= top_k ->
  returns (Semantic.select_tool embed query top_k st).1.
Proof.
  intros Hd Hk. rewrite flat_select_tool_eq.
  rewrite search_ok by (rewrite ?renorm_length; (exact Hd || lia)).
  simpl. by eexists.
Qed.

(** ** More on the flat notebook *)

(** The stub embedding model returns vectors of dimension 2. *)
Lemma stub_embed_dim text : length (Scenario.stub_embed text) = 2%nat.
Proof.
  unfold Scenario.stub_embed.
  repeat match goal with |- context [if ?b then _ else _] => destruct b end;
    reflexivity.
Qed.

(** X1. The build cells of the flat notebook (cells 5 to 9), run on any
    table of tool descriptions with an embedding model of fixed
    dimension. On an empty table they end with IndexError, raised where
    the dimension is read from the first embedding. On any other table they end normally, and position by
    position the name list, the vectors stored in the index and the
    texts sent to the embedding model follow the order of the table: the
    index holds exactly the embeddings of the descriptions, as many as
    there are names. *)
Theorem flat_build_positions_align
  (embed : string -> vec) (dim : nat) (items : list (string * string))
  (rt : runtime) :
  (forall text, length (embed text) = dim) ->
  let r := Semantic.build embed items rt in
  match items with
  | [] => r.1 = Raise IndexError
  | _ :: _ =>
      exists g,
        r.1 = Ok g /\
        Semantic.tool_names g = map fst items /\
        xb (Semantic.index g) = map (fun item => embed item.2) items /\
        ntotal (Semantic.index g) = length (Semantic.tool_names g) /\
        embed_calls r.2 = embed_calls rt ++ map snd items
  end.
Proof.
  intros _ r. subst r. destruct items as [|item items]; [reflexivity|].
  rewrite flat_build_eq by discriminate.
  exists (Scenario.flat_registry embed (item :: items)).
  split; [reflexivity|]. split; [reflexivity|]. split; [reflexivity|].
  split; [|reflexivity].
  unfold ntotal. simpl. by rewrite !length_map.
Qed.

Lemma flat_build_positions_align_witness :
  let r := Semantic.build Scenario.stub_embed Semantic.tool_descriptions
             empty_runtime in
  exists g,
    r.1 = Ok g /\
    Semantic.tool_names g =
      ["query_wolfram_alpha"; "trigger_zapier_webhook"; "send_slack_message"] /\
    xb (Semantic.index g) = [[1; 0]; [0; 1]; [-1; 0]]%R /\
    ntotal (Semantic.index g) = length (Semantic.tool_names g) /\
    embed_calls r.2 = map snd Semantic.tool_descriptions.
Proof.
  exact (flat_build_positions_align Scenario.stub_embed 2
           Semantic.tool_descriptions empty_runtime stub_embed_dim).
Defined.

Lemma length_omap_le {A B} (f : A -> option B) (l : list A) :
  (length (omap f l) <= length l)%nat.
Proof.
  induction l as [|x l IH]; [reflexivity|].
  change (omap f (x :: l)) with (match f x with Some y => y :: omap f l | None => omap f l end).
  destruct (f x); simpl; lia.
Qed.

Lemma hard_coded_table_values (i : Z) (name : string) :
  (<[0 := "query_wolfram_alpha"]>
     (<[1 := "trigger_zapier_webhook"]>
        (<[2 := "send_slack_message"]> (∅ : gmap Z string)))) !! i = Some name ->
  (i = 0 /\ name = "query_wolfram_alpha") \/
  (i = 1 /\ name = "trigger_zapier_webhook") \/
  (i = 2 /\ name = "send_slack_message").
Proof.
  rewrite !lookup_insert, lookup_empty.
  repeat case_decide; intros [= <-]; subst; auto.
Qed.

(** X2. Whatever table of descriptions the flat index was built from,
    [select_tool] returns at most [top_k] names, and each of them is one
    of the three names written in [index_to_tool]: a position without an
    entry in that table is dropped, not reported. *)
Theorem flat_select_names_in_table
  (embed : string -> vec) (items : list (string * string))
  (rt rt' rt1 : runtime) (g : Semantic.globals)
  (query : string) (top_k : Z) (names : list string) :
  Semantic.build embed items rt = (Ok g, rt') ->
  (Semantic.select_tool embed query top_k (g, rt1)).1 = Ok names ->
  (length names <= Z.to_nat top_k)%nat /\
  forall name, name ∈ names ->
    name ∈ ["query_wolfram_alpha"; "trigger_zapier_webhook"; "send_slack_message"].
Proof.
  intros Hbuild Hsel.
  destruct items as [|item items]; [discriminate|].
  rewrite flat_build_eq in Hbuild by discriminate. injection Hbuild as <- _.
  rewrite flat_select_tool_eq in Hsel. simpl in Hsel.
  destruct (search _ _ _) as [[D I_]|] eqn:Hsearch; [|discriminate].
  unfold search in Hsearch. simpl in Hsearch.
  destruct (negb _); [discriminate|]. destruct (negb (0 <? top_k)); [discriminate|].
  injection Hsearch as <- <-. simpl in Hsel. injection Hsel as <-.
  split.
  - etransitivity; [apply length_omap_le|]. by rewrite knn_labels_length.
  - intros name Hname. apply list_elem_of_omap in Hname as [i [_ Hi]].
    apply hard_coded_table_values in Hi as [[_ ->]|[[_ ->]|[_ ->]]]; set_solver.
Qed.

Lemma flat_select_names_in_table_witness :
  (length ["query_wolfram_alpha"] <= Z.to_nat 1)%nat /\
  forall name, name ∈ ["query_wolfram_alpha"] ->
    name ∈ ["query_wolfram_alpha"; "trigger_zapier_webhook"; "send_slack_message"].
Proof.
  apply (flat_select_names_in_table Scenario.stub_embed Semantic.tool_descriptions
           empty_runtime
           (Scenario.flat_runtime Scenario.stub_embed Semantic.tool_descriptions
              empty_runtime)
           empty_runtime
           (Scenario.flat_registry Scenario.stub_embed Semantic.tool_descriptions)
           Scenario.user_query 1).
  - by rewrite flat_build_eq.
  - by rewrite scenario_flat_select.
Defined.

Lemma rank_positions xb q : map fst (rank xb q) ≡ₚ seq 0 (length xb).
Proof.
  rewrite (rank_perm xb q).
  assert (H : forall n, map fst (imap (fun i v => ((n + i)%nat, fvec_L2sqr q v)) xb)
                        = seq n (length xb)).
  { induction xb as [|v xb IH]; intros n; [reflexivity|].
    simpl. rewrite Nat.add_0_r. f_equal.
    rewrite <- IH. f_equal. apply imap_ext. intros i w _. simpl. f_equal. lia. }
  by rewrite <- (H 0%nat).
Qed.

Lemma knn_hits_positions_NoDup xb q k : NoDup (map fst (knn_hits xb q k)).
Proof.
  unfold knn_hits.
  change (map fst (take k (rank xb q))) with (fst <$> take k (rank xb q)).
  rewrite fmap_take.
  eapply sublist_NoDup; [|apply sublist_take].
  change (fst <$> rank xb q) with (map fst (rank xb q)).
  rewrite rank_positions. apply NoDup_seq.
Qed.

Lemma NoDup_omap_inj {A B} (f : A -> option B) (l : list A) :
  (forall x y z, f x = Some z -> f y = Some z -> x = y) ->
  NoDup l -> NoDup (omap f l).
Proof.
  intros Hinj. induction 1 as [|x l Hx Hl IH]; [constructor|].
  change (omap f (x :: l))
    with (match f x with Some y => y :: omap f l | None => omap f l end).
  destruct (f x) as [y|] eqn:Hfx; [|exact IH].
  constructor; [|exact IH].
  intros Hy. apply list_elem_of_omap in Hy as [x' [Hx' Hfx']].
  by rewrite (Hinj _ _ _ Hfx Hfx') in Hx.
Qed.

(** X3. On a flat index built from at most three descriptions, with an
    embedding model of fixed dimension and [top_k >= 1], [select_tool]
    returns normally, the number of names is the smaller of [top_k] and
    the number of descriptions, and no name is returned twice. *)
Theorem flat_select_count
  (embed : string -> vec) (dim : nat) (items : list (string * string))
  (rt rt' rt1 : runtime) (g : Semantic.globals) (query : string) (top_k : Z) :
  (forall text, length (embed text) = dim) ->
  (length items <= 3)%nat ->
  1 <= top_k ->
  Semantic.build embed items rt = (Ok g, rt') ->
  exists names,
    (Semantic.select_tool embed query top_k (g, rt1)).1 = Ok names /\
    length names = (Z.to_nat top_k `min` length items)%nat /\
    NoDup names.
Proof.
  intros Hdim Hlen Hk Hbuild.
  destruct items as [|item items]; [discriminate|].
  rewrite flat_build_eq in Hbuild by discriminate. injection Hbuild as <- _.
  rewrite flat_select_tool_eq. simpl.
  rewrite search_ok by (simpl; rewrite ?renorm_length, ?Hdim; (reflexivity || lia)).
  simpl. eexists. split; [reflexivity|]. split.
  - unfold knn_labels.
    rewrite omap_app, omap_padding, app_nil_r by reflexivity.
    rewrite omap_all_some.
    + rewrite length_map, knn_hits_length. simpl. by rewrite !length_map.
    + apply Forall_forall. intros i Hi.
      apply list_elem_of_fmap in Hi as [h [-> Hh]].
      apply knn_hits_elem in Hh as [v [Hv _]].
      apply lookup_lt_Some in Hv. simpl in Hv, Hlen. rewrite length_map in Hv.
      revert Hv. generalize h.1. intros [|[|[|n]]] Hp; [by eexists..|].
      exfalso. clear -Hp Hlen. lia.
  - unfold knn_labels.
    rewrite omap_app, omap_padding, app_nil_r by reflexivity.
    apply NoDup_omap_inj.
    + intros x y z Hx Hy.
      apply hard_coded_table_values in Hx, Hy. 
      destruct Hx as [[-> ->]|[[-> ->]|[-> ->]]];
        destruct Hy as [[-> Hy]|[[-> Hy]|[-> Hy]]]; (reflexivity || discriminate).
    + rewrite <- (map_map fst Z.of_nat).
      apply (NoDup_fmap_2 Z.of_nat), knn_hits_positions_NoDup.
Qed.

Lemma flat_select_count_witness :
  exists names,
    (Semantic.select_tool Scenario.stub_embed Scenario.user_query 4
       (Scenario.flat_registry Scenario.stub_embed Semantic.tool_descriptions,
        empty_runtime)).1 = Ok names /\
    length names = (Z.to_nat 4 `min` length Semantic.tool_descriptions)%nat /\
    NoDup names.
Proof.
  apply (flat_select_count Scenario.stub_embed 2 Semantic.tool_descriptions
           empty_runtime
           (Scenario.flat_runtime Scenario.stub_embed Semantic.tool_descriptions
              empty_runtime)).
  - exact stub_embed_dim.
  - simpl. lia.
  - lia.
  - by rewrite flat_build_eq.
Defined.

Lemma by_distance_trans : Transitive by_distance.
Proof. intros a b c. unfold by_distance. lra. Qed.

(** The first entry of a ranking is at least as near as every stored
    vector. *)
Lemma rank_head_nearest xb q h t :
  rank xb q = h :: t ->
  (exists v, xb !! h.1 = Some v /\ h.2 = fvec_L2sqr q v) /\
  forall j w, xb !! j = Some w -> (h.2 <= fvec_L2sqr q w)%R.
Proof.
  intros Hrank. split.
  - apply rank_elem. rewrite Hrank. apply list_elem_of_here.
  - intros j w Hw.
    assert (Hin : (j, fvec_L2sqr q w) ∈ rank xb q).
    { rewrite (rank_perm xb q). apply elem_of_lookup_imap. by exists j, w. }
    pose proof (rank_sorted xb q) as Hs. rewrite Hrank in Hs, Hin.
    apply (Sorted_StronglySorted by_distance_trans) in Hs.
    apply StronglySorted_inv in Hs as [_ Hall].
    apply elem_of_cons in Hin as [<-|Hin]; [simpl; lra|].
    rewrite Forall_forall in Hall. exact (Hall _ Hin).
Qed.



(** X5. [determine_parameters] for a tool name that is none of the three
    it has a branch for: once the model's reply decodes, the result is
    the empty dict, whatever the reply holds. *)
Theorem determine_parameters_unknown_tool
  (llm : string -> string) (json_loads : string -> outcome pyval)
  (query tool_name : string) (response_data : pyval) :
  tool_name ∉ ["query_wolfram_alpha"; "trigger_zapier_webhook";
               "send_slack_message"] ->
  json_loads (llm (Semantic.prompt query tool_name)) = Ok response_data ->
  Semantic.determine_parameters llm json_loads query tool_name = Ok [].
Proof.
  intros Hnot Hjson.
  unfold Semantic.determine_parameters, mbind, outcome_bind. rewrite Hjson.
  destruct (String.eqb_spec tool_name "query_wolfram_alpha") as [->|_];
    [exfalso; apply Hnot; set_solver|].
  destruct (String.eqb_spec tool_name "trigger_zapier_webhook") as [->|_];
    [exfalso; apply Hnot; set_solver|].
  destruct (String.eqb_spec tool_name "send_slack_message") as [->|_];
    [exfalso; apply Hnot; set_solver|].
  reflexivity.
Qed.

(** X6. [determine_parameters] for one of its three tools, when the
    model's reply is valid JSON but not an object (a list, a number, a
    string, null): the call of [.get] on the decoded value raises
    AttributeError, which nothing in the function handles. *)
Theorem determine_parameters_non_object
  (llm : string -> string) (json_loads : string -> outcome pyval)
  (query tool_name : string) (response_data : pyval) :
  tool_name ∈ ["query_wolfram_alpha"; "trigger_zapier_webhook";
               "send_slack_message"] ->
  json_loads (llm (Semantic.prompt query tool_name)) = Ok response_data ->
  (forall items, response_data <> PDict items) ->
  fails_with (Semantic.determine_parameters llm json_loads query tool_name)
    "AttributeError".
Proof.
  intros Htool Hjson Hshape.
  unfold Semantic.determine_parameters, mbind, outcome_bind. rewrite Hjson.
  assert (Hget : forall k dflt, exists msg,
             dict_get response_data k dflt = Raise (AttributeError msg)).
  { intros k dflt. destruct response_data; try (by eexists).
    by destruct (Hshape items). }
  apply elem_of_cons in Htool as [->|Htool];
    [|apply elem_of_cons in Htool as [->|Htool];
      [|apply list_elem_of_singleton in Htool as ->]]; simpl.
  - destruct (Hget "expression" PNone) as [msg ->]. by eexists.
  - destruct (Hget "zap_id" (PStr "123456")) as [msg ->]. by eexists.
  - destruct (Hget "channel" (PStr "#general")) as [msg ->]. by eexists.
Qed.

Lemma determine_parameters_unknown_tool_witness :
  Semantic.determine_parameters Cases.llm_list Json.loads Cases.stock_question
    "get_stock_price" = Ok [].
Proof.
  apply (determine_parameters_unknown_tool Cases.llm_list Json.loads
           Cases.stock_question "get_stock_price" (PList [PInt 1; PInt 2])).
  - intros H. repeat (apply elem_of_cons in H as [H|H]; [discriminate|]).
    by apply elem_of_nil in H.
  - reflexivity.
Defined.

Lemma determine_parameters_non_object_witness :
  fails_with
    (Semantic.determine_parameters Cases.llm_list Json.loads Scenario.user_query
       "send_slack_message") "AttributeError".
Proof.
  apply (determine_parameters_non_object Cases.llm_list Json.loads
           Scenario.user_query "send_slack_message" (PList [PInt 1; PInt 2])).
  - set_solver.
  - reflexivity.
  - discriminate.
Defined.

(** *** The flat driver, path by path *)

Section FlatDriver.

Variable embed : string -> vec.
Variable llm : string -> string.
Variable json_loads : string -> outcome pyval.
Variable namespace : gmap string (pyval -> outcome string).

Lemma main_nothing_selected query st names st1 :
  Semantic.select_tool embed query 1 st = (Ok names, st1) ->
  truthy_name (head names) = false ->
  Semantic.main embed llm json_loads namespace query st =
  (Ok tt,
   (st1.1,
    mkRuntime (ndarrays st1.2) (embed_calls st1.2) (invoked st1.2)
      (stdout st1.2 ++ ["No tool was selected."]))).
Proof.
  intros Hsel Hfalsy. unfold Semantic.main, mbind at 1, M_bind at 1.
  rewrite Hsel. simpl. rewrite Hfalsy. by destruct st1.
Qed.

End FlatDriver.

(** Evaluating a ranking whose distances are numerals. *)
Ltac rank_numeric :=
  unfold rank, fvec_L2sqr, fvec_norm_L2sqr; simpl;
  repeat (match goal with
          | |- context [Rle_dec ?a ?b] =>
              destruct (Rle_dec a b); [try (exfalso; lra)|try (exfalso; lra)]
          end; simpl);
  try reflexivity.

Lemma renorm_e2 : fvec_renorm_L2 [0; 1]%R = [0; 1]%R.
Proof. apply renorm_unit_fixed. unfold fvec_norm_L2sqr; simpl; lra. Qed.

(** With four descriptions, the stock question is nearest to the fourth,
    whose position is not a key of [index_to_tool]. *)
Lemma four_tools_select :
  let st := (Scenario.flat_registry Cases.embed_finance Cases.four_tools,
             empty_runtime) in
  Semantic.select_tool Cases.embed_finance Cases.stock_question 1 st =
  (Ok [], after_query Cases.embed_finance Cases.stock_question st).
Proof.
  intros st. rewrite flat_select_tool_eq. f_equal.
  change (Cases.embed_finance Cases.stock_question) with [1; 0]%R.
  rewrite renorm_e1.
  rewrite search_ok by (reflexivity || lia).
  change (xb (Semantic.index st.1)) with [[0; 1]; [0; 1]; [0; 1]; [1; 0]]%R.
  assert (Hrank : rank [[0; 1]; [0; 1]; [0; 1]; [1; 0]]%R [1; 0]%R =
            [(3%nat, fvec_L2sqr [1; 0]%R [1; 0]%R);
             (0%nat, fvec_L2sqr [1; 0]%R [0; 1]%R);
             (1%nat, fvec_L2sqr [1; 0]%R [0; 1]%R);
             (2%nat, fvec_L2sqr [1; 0]%R [0; 1]%R)]) by rank_numeric.
  unfold knn_labels, knn_hits. rewrite Hrank. reflexivity.
Qed.

(** X7. The flat driver when the selection is empty: it prints
    [No tool was selected.], returns normally and invokes nothing. *)
Theorem flat_driver_reports_no_tool
  (embed : string -> vec) (llm : string -> string)
  (json_loads : string -> outcome pyval)
  (namespace : gmap string (pyval -> outcome string))
  (query : string) (st st1 : Semantic.globals * runtime) :
  Semantic.select_tool embed query 1 st = (Ok [], st1) ->
  let r := Semantic.main embed llm json_loads namespace query st in
  r.1 = Ok tt /\
  stdout r.2.2 = stdout st.2 ++ ["No tool was selected."] /\
  invoked r.2.2 = invoked st.2.
Proof.
  intros Hsel r. subst r.
  rewrite (main_nothing_selected embed llm json_loads namespace query st [] st1
             Hsel eq_refl).
  rewrite flat_select_tool_eq in Hsel. injection Hsel as _ <-. by repeat split.
Qed.

Lemma flat_driver_reports_no_tool_witness :
  let st := (Scenario.flat_registry Cases.embed_finance Cases.four_tools,
             empty_runtime) in
  let r := Semantic.main Cases.embed_finance Scenario.llm_expression Json.loads
             Cases.wolfram_answers Cases.stock_question st in
  r.1 = Ok tt /\
  stdout r.2.2 = ["No tool was selected."] /\
  invoked r.2.2 = [].
Proof.
  intros st.
  exact (flat_driver_reports_no_tool Cases.embed_finance Scenario.llm_expression
           Json.loads Cases.wolfram_answers Cases.stock_question st _
           four_tools_select).
Defined.

(** X8. The flat driver when the selected name is not bound in
    [globals()]: the lookup raises KeyError inside the [try], the
    [except ValueError] clause does not catch it, and the driver ends
    with that KeyError having invoked and printed nothing. *)
Theorem flat_driver_unbound_tool
  (embed : string -> vec) (llm : string -> string)
  (json_loads : string -> outcome pyval)
  (namespace : gmap string (pyval -> outcome string))
  (query tool_name : string) (rest : list string)
  (args : list (string * pyval)) (st st1 : Semantic.globals * runtime) :
  Semantic.select_tool embed query 1 st = (Ok (tool_name :: rest), st1) ->
  tool_name <> EmptyString ->
  Semantic.determine_parameters llm json_loads query tool_name = Ok args ->
  namespace !! tool_name = None ->
  Semantic.main embed llm json_loads namespace query st
  = (Raise (KeyError tool_name), st1) /\
  invoked st1.2 = invoked st.2 /\ stdout st1.2 = stdout st.2.
Proof.
  intros Hsel Hne Hargs Hns. split.
  - rewrite (main_after_selection _ _ _ _ _ _ _ _ _ Hsel Hne), Hargs.
    unfold try_except_ValueError, mbind, M_bind, lift. by rewrite Hns.
  - rewrite flat_select_tool_eq in Hsel. injection Hsel as _ <-. by split.
Qed.

Lemma flat_driver_unbound_tool_witness :
  let st := (Scenario.flat_registry Scenario.stub_embed Semantic.tool_descriptions,
             empty_runtime) in
  (Semantic.main Scenario.stub_embed Scenario.llm_expression Json.loads ∅
     Scenario.user_query st).1 = Raise (KeyError "query_wolfram_alpha").
Proof.
  intros st.
  destruct (flat_driver_unbound_tool Scenario.stub_embed Scenario.llm_expression
              Json.loads ∅ Scenario.user_query "query_wolfram_alpha" []
              [("expression", PStr "2x + 3 = 7")] st _ scenario_flat_select)
    as [Hmain _]; [discriminate | reflexivity | reflexivity |].
  by rewrite Hmain.
Defined.

(** X9. The flat driver when the selected tool is bound and its
    invocation returns: the tool is invoked once, with the arguments
    [determine_parameters] produced, the result line is printed, and the
    driver returns normally. *)
Theorem flat_driver_invokes_once
  (embed : string -> vec) (llm : string -> string)
  (json_loads : string -> outcome pyval)
  (namespace : gmap string (pyval -> outcome string))
  (query tool_name : string) (rest : list string)
  (args : list (string * pyval)) (tool : pyval -> outcome string)
  (tool_result : string) (st st1 : Semantic.globals * runtime) :
  Semantic.select_tool embed query 1 st = (Ok (tool_name :: rest), st1) ->
  tool_name <> EmptyString ->
  Semantic.determine_parameters llm json_loads query tool_name = Ok args ->
  namespace !! tool_name = Some tool ->
  tool (PDict args) = Ok tool_result ->
  let r := Semantic.main embed llm json_loads namespace query st in
  r.1 = Ok tt /\
  invoked r.2.2 = invoked st.2 ++ [(tool_name, PDict args)] /\
  stdout r.2.2 =
    stdout st.2 ++ ["Tool '" +:+ tool_name +:+ "' Result: " +:+ tool_result].
Proof.
  intros Hsel Hne Hargs Hns Htool r. subst r.
  rewrite (main_after_selection _ _ _ _ _ _ _ _ _ Hsel Hne), Hargs.
  rewrite flat_select_tool_eq in Hsel. injection Hsel as _ <-.
  unfold try_except_ValueError, mbind, M_bind, lift, on_rt, invoke_call, print.
  simpl. rewrite Hns. simpl. rewrite Htool. by repeat split.
Qed.

Lemma flat_driver_invokes_once_witness :
  let st := (Scenario.flat_registry Scenario.stub_embed Semantic.tool_descriptions,
             empty_runtime) in
  let r := Semantic.main Scenario.stub_embed Scenario.llm_expression Json.loads
             Cases.wolfram_answers Scenario.user_query st in
  r.1 = Ok tt /\
  invoked r.2.2 = [("query_wolfram_alpha", PDict [("expression", PStr "2x + 3 = 7")])] /\
  stdout r.2.2 = ["Tool 'query_wolfram_alpha' Result: x = 2"].
Proof.
  intros st.
  apply (flat_driver_invokes_once Scenario.stub_embed Scenario.llm_expression
           Json.loads Cases.wolfram_answers Scenario.user_query
           "query_wolfram_alpha" [] [("expression", PStr "2x + 3 = 7")]
           (fun _ => Ok "x = 2") "x = 2" st _ scenario_flat_select);
    [discriminate | reflexivity | reflexivity | reflexivity].
Defined.

(** ** More on the hierarchical notebook *)

Section HierarchicalBuildOutcome.

Variable embed : string -> vec.

Lemma describe_tools_eq tools acc :
  Hierarchical.describe_tools tools acc =
  if forallb (fun t => bool_decide (is_Some (Hierarchical.doc t))) tools
  then Ok (acc.1 ++ map tool_description tools, acc.2 ++ tools)
  else Raise (AttributeError "'NoneType' object has no attribute 'strip'").
Proof.
  revert acc. induction tools as [|t tools IH]; intros acc; simpl.
  - destruct acc. simpl. by rewrite !app_nil_r.
  - destruct (Hierarchical.doc t) as [text|] eqn:Hdoc; simpl; [|reflexivity].
    rewrite IH. simpl. destruct (forallb _ tools); [|reflexivity].
    unfold tool_description at 2. rewrite Hdoc. simpl.
    by rewrite <- !app_assoc.
Qed.

(** The loop of cell 11 on documented groups: it ends normally, and the
    texts it sends to the embedding model are the tools' descriptions,
    group by group. *)
Lemma build_tool_indices_documented items tool_indices rt :
  documented items = true ->
  exists tool_indices' arrays,
    Hierarchical.build_tool_indices embed items tool_indices rt =
    (Ok tool_indices',
     mkRuntime (ndarrays rt ++ arrays)
       (embed_calls rt ++
        concat (map (fun item => map tool_description (Hierarchical.tools item.2))
                  items))
       (invoked rt) (stdout rt)).
Proof.
  revert tool_indices rt.
  induction items as [|[group_name group_info] items IH];
    intros tool_indices rt Hdoc.
  - exists tool_indices, []. destruct rt. simpl. unfold mret, M_ret.
    by rewrite !app_nil_r.
  - simpl in Hdoc. apply andb_true_iff in Hdoc as [Hthis Hrest].
    pose proof (describe_tools_eq (Hierarchical.tools group_info) ([], []))
      as Hdesc.
    simpl in Hthis. rewrite Hthis in Hdesc. simpl in Hdesc.
    destruct (Hierarchical.tools group_info) as [|t tools] eqn:Htools.
    + rewrite build_tool_indices_skip by exact Htools.
      destruct (IH tool_indices rt Hrest) as (ti' & arrays & ->).
      exists ti', arrays. simpl. by rewrite Htools.
    + rewrite (build_tool_indices_cons embed group_name group_info items
                 tool_indices rt (tool_description t)
                 (map tool_description tools) (t :: tools))
        by (rewrite Htools; exact Hdesc).
      match goal with
      | |- context [Hierarchical.build_tool_indices embed items ?ti ?rt1] =>
          destruct (IH ti rt1 Hrest) as (ti' & arrays & ->)
      end.
      eexists ti', (_ :: arrays). simpl. rewrite Htools. simpl.
      by rewrite <- !app_assoc.
Qed.

(** ... and on groups with a tool that has no docstring. *)
Lemma build_tool_indices_undocumented items tool_indices rt :
  documented items = false ->
  (Hierarchical.build_tool_indices embed items tool_indices rt).1 =
  Raise (AttributeError "'NoneType' object has no attribute 'strip'").
Proof.
  revert tool_indices rt.
  induction items as [|[group_name group_info] items IH];
    intros tool_indices rt Hdoc; [discriminate|].
  simpl in Hdoc.
  pose proof (describe_tools_eq (Hierarchical.tools group_info) ([], []))
    as Hdesc.
  destruct (forallb _ (Hierarchical.tools group_info)) eqn:Hthis.
  - simpl in Hdoc, Hdesc.
    destruct (Hierarchical.tools group_info) as [|t tools] eqn:Htools.
    + rewrite build_tool_indices_skip by exact Htools. by apply IH.
    + rewrite (build_tool_indices_cons embed group_name group_info items
                 tool_indices rt (tool_description t)
                 (map tool_description tools) (t :: tools))
        by (rewrite Htools; exact Hdesc).
      by apply IH.
  - simpl. unfold mbind at 1, M_bind at 1, lift at 1. by rewrite Hdesc.
Qed.

End HierarchicalBuildOutcome.

Lemma hier_build_empty embed rt :
  (Hierarchical.build embed [] rt).1 = Raise IndexError.
Proof.
  unfold Hierarchical.build, Hierarchical.build_group_index, mbind, M_bind,
    lift, np_array, normalize_L2, np_read, modify, mret, M_ret. simpl.
  by rewrite alter_fresh, lookup_fresh.
Qed.



Lemma unique_key {A B} (l : list (A * B)) x y1 y2 :
  NoDup (map fst l) -> (x, y1) ∈ l -> (x, y2) ∈ l -> y1 = y2.
Proof.
  induction l as [|[a b] l IH]; simpl; intros Hnd H1 H2.
  - by apply elem_of_nil in H1.
  - apply NoDup_cons in Hnd as [Ha Hnd].
    apply elem_of_cons in H1 as [H1|H1]; apply elem_of_cons in H2 as [H2|H2].
    + congruence.
    + injection H1 as -> ->. exfalso. apply Ha.
      apply list_elem_of_fmap. by exists (a, y2).
    + injection H2 as -> ->. exfalso. apply Ha.
      apply list_elem_of_fmap. by exists (a, y1).
    + by apply IH.
Qed.

(** After the loop of cell 11, every group with at least one tool has an
    entry, and entries already there are kept. *)
Lemma build_tool_indices_present embed items tool_indices0 rt tool_indices rt' :
  Hierarchical.build_tool_indices embed items tool_indices0 rt
    = (Ok tool_indices, rt') ->
  (forall group_name,
     is_Some (tool_indices0 !! group_name) ->
     is_Some (tool_indices !! group_name)) /\
  (forall group_name group_info,
     (group_name, group_info) ∈ items ->
     Hierarchical.tools group_info <> [] ->
     is_Some (tool_indices !! group_name)).
Proof.
  revert tool_indices0 rt.
  induction items as [|[gname ginfo] items IH]; intros ti0 rt Hbuild.
  - simpl in Hbuild. injection Hbuild as <- _. split; [auto|].
    intros group_name group_info Hin. by apply elem_of_nil in Hin.
  - pose proof (describe_tools_eq (Hierarchical.tools ginfo) ([], [])) as Hdesc.
    destruct (forallb _ (Hierarchical.tools ginfo)) eqn:Hthis.
    2:{ simpl in Hbuild. unfold mbind at 1, M_bind at 1, lift at 1 in Hbuild.
        rewrite Hdesc in Hbuild. discriminate. }
    simpl in Hdesc.
    destruct (Hierarchical.tools ginfo) as [|t tools] eqn:Htools.
    + rewrite build_tool_indices_skip in Hbuild by exact Htools.
      destruct (IH _ _ Hbuild) as [Hkeep Hnew]. split; [exact Hkeep|].
      intros group_name group_info Hin Hne.
      apply elem_of_cons in Hin as [Heq|Hin];
        [injection Heq as -> ->; by rewrite Htools in Hne|].
      by apply (Hnew _ group_info).
    + rewrite (build_tool_indices_cons embed gname ginfo items ti0 rt
                 (tool_description t) (map tool_description tools) (t :: tools))
        in Hbuild by (rewrite Htools; exact Hdesc).
      destruct (IH _ _ Hbuild) as [Hkeep Hnew]. split.
      * intros group_name Hsome. apply Hkeep.
        destruct (decide (gname = group_name)) as [->|Hneq].
        -- rewrite lookup_insert_eq. by eexists.
        -- by rewrite lookup_insert_ne.
      * intros group_name group_info Hin Hne.
        apply elem_of_cons in Hin as [Heq|Hin].
        -- injection Heq as -> ->. apply Hkeep. rewrite lookup_insert_eq.
           by eexists.
        -- by apply (Hnew _ group_info).
Qed.

(** X11. After a build of the hierarchical notebook that ended normally,
    on groups with distinct names: a group has an entry in
    [tool_indices] exactly when it has tools, and the entry lists the
    group's tools in their order and indexes one vector per tool. *)
Theorem tool_indices_match_groups
  (embed : string -> vec) (tool_groups : list (string * Hierarchical.group_info))
  (rt rt' : runtime) (g : Hierarchical.globals)
  (group_name : string) (group_info : Hierarchical.group_info) :
  Hierarchical.build embed tool_groups rt = (Ok g, rt') ->
  NoDup (map fst tool_groups) ->
  (group_name, group_info) ∈ tool_groups ->
  match Hierarchical.tool_indices g !! group_name with
  | Some info =>
      Hierarchical.tools group_info <> [] /\
      Hierarchical.functions info = Hierarchical.tools group_info /\
      ntotal (Hierarchical.index info) = length (Hierarchical.tools group_info)
  | None => Hierarchical.tools group_info = []
  end.
Proof.
  intros Hbuild Hnodup Hin.
  destruct tool_groups as [|item items]; [by apply elem_of_nil in Hin|].
  rewrite hier_build_eq in Hbuild by discriminate. cbv zeta in Hbuild.
  destruct (Hierarchical.build_tool_indices _ _ _ _) as [[ti|e] rt2] eqn:Hti;
    [|discriminate].
  injection Hbuild as <- _. cbn [Hierarchical.tool_indices].
  destruct (ti !! group_name) as [info|] eqn:Hinfo.
  - destruct (build_tool_indices_entries _ _ _ _ _ _ Hti _ _ Hinfo)
      as [H0|(gi & ds & Hgi & Hne & Hf & Hlen & Hindex)].
    { by rewrite lookup_empty in H0. }
    rewrite (unique_key _ _ _ _ Hnodup Hin Hgi).
    split; [exact Hne|]. split; [exact Hf|].
    rewrite Hindex. unfold ntotal. simpl. by rewrite !length_map.
  - destruct (Hierarchical.tools group_info) as [|t tools] eqn:Htools;
      [reflexivity|].
    destruct (build_tool_indices_present _ _ _ _ _ _ Hti) as [_ Hnew].
    destruct (Hnew group_name group_info Hin) as [info' Hinfo'].
    + by rewrite Htools.
    + by rewrite Hinfo in Hinfo'.
Qed.

Lemma documented_groups_NoDup : NoDup (map fst Scenario.documented_groups).
Proof.
  apply (NoDup_ListNoDup (map fst Scenario.documented_groups)).
  repeat constructor; simpl; intuition discriminate.
Qed.

Lemma tool_indices_match_groups_witness :
  match Hierarchical.tool_indices Scenario.hier_registry !! "Automation" with
  | Some info =>
      [Hierarchical.trigger_zapier_webhook] <> [] /\
      Hierarchical.functions info = [Hierarchical.trigger_zapier_webhook] /\
      ntotal (Hierarchical.index info) = 1%nat
  | None => [Hierarchical.trigger_zapier_webhook] = []
  end.
Proof.
  apply (tool_indices_match_groups Scenario.stub_embed Scenario.documented_groups
           empty_runtime Scenario.hier_runtime Scenario.hier_registry "Automation"
           (Hierarchical.mkGroup
              "Tools that automate workflows and integrate different services."
              [Hierarchical.trigger_zapier_webhook])
           scenario_hier_build documented_groups_NoDup).
  apply list_elem_of_further, list_elem_of_here.
Defined.

Lemma hier_build_ok_inv embed tool_groups rt g rt' :
  Hierarchical.build embed tool_groups rt = (Ok g, rt') ->
  tool_groups <> [] /\
  exists tool_indices rt1,
    Hierarchical.build_tool_indices embed tool_groups ∅ rt1
      = (Ok tool_indices, rt') /\
    g = Hierarchical.mkGlobals tool_groups (map fst tool_groups)
          (map (fun item => embed (Hierarchical.description item.2)) tool_groups)
          (mkIndex
             (shape1 (map (fun item => embed (Hierarchical.description item.2))
                        tool_groups))
             (map fvec_renorm_L2
                (map (fun item => embed (Hierarchical.description item.2))
                   tool_groups)))
          tool_indices.
Proof.
  intros Hbuild. destruct tool_groups as [|item items].
  { pose proof (hier_build_empty embed rt) as H. rewrite Hbuild in H.
    discriminate. }
  split; [discriminate|].
  rewrite hier_build_eq in Hbuild by discriminate. cbv zeta in Hbuild.
  destruct (Hierarchical.build_tool_indices _ _ _ _) as [[ti|e] rt2] eqn:Hti;
    [|discriminate].
  injection Hbuild as <- <-. by eexists _, _.
Qed.

Lemma filter_all {A} (P : A -> Prop) `{forall x, Decision (P x)} (l : list A) :
  Forall P l -> filter P l = l.
Proof.
  induction 1 as [|x l Hx _ IH]; [reflexivity|].
  rewrite filter_cons_True by exact Hx. by rewrite IH.
Qed.

(** X12. On a registry the hierarchical build left, with an embedding
    model of fixed dimension and [top_k >= 1], [select_group] returns
    normally, it returns exactly [top_k] names, and every one of them is
    the name of a group of the table. *)
Theorem select_group_on_built
  (embed : string -> vec) (dim : nat)
  (tool_groups : list (string * Hierarchical.group_info))
  (rt rt' rt1 : runtime) (g : Hierarchical.globals)
  (query : string) (top_k : Z) :
  (forall text, length (embed text) = dim) ->
  Hierarchical.build embed tool_groups rt = (Ok g, rt') ->
  1 <= top_k ->
  exists names,
    (Hierarchical.select_group embed query top_k (g, rt1)).1 = Ok names /\
    length names = Z.to_nat top_k /\
    forall name, name ∈ names -> name ∈ map fst tool_groups.
Proof.
  intros Hdim Hbuild Hk.
  apply hier_build_ok_inv in Hbuild as (Hne & ti & rt2 & _ & ->).
  destruct tool_groups as [|item items]; [done|].
  destruct (select_group_length embed query top_k
              (Hierarchical.mkGlobals (item :: items) (map fst (item :: items))
                 (map (fun it : string * Hierarchical.group_info =>
                         embed (Hierarchical.description it.2)) (item :: items))
                 (mkIndex
                    (shape1 (map (fun it : string * Hierarchical.group_info =>
                                    embed (Hierarchical.description it.2))
                               (item :: items)))
                    (map fvec_renorm_L2
                       (map (fun it : string * Hierarchical.group_info =>
                               embed (Hierarchical.description it.2))
                          (item :: items))))
                 ti, rt1))
    as (names & Hnames & Hlen).
  - simpl. by rewrite !Hdim.
  - exact Hk.
  - unfold ntotal. simpl. by rewrite !length_map.
  - discriminate.
  - exists names. split; [exact Hnames|]. split; [exact Hlen|].
    intros name Hname. rewrite select_group_eq in Hnames. simpl in Hnames.
    destruct (search _ _ _) as [[D I_]|]; [|discriminate].
    destruct (py_index I_ 0) as [I0|]; [|discriminate].
    destruct (comprehension_elem _ _ _ _ Hnames Hname) as [i [_ Hi]].
    by apply py_index_elem in Hi.
Qed.

Lemma select_group_on_built_witness :
  exists names,
    (Hierarchical.select_group Scenario.stub_embed Scenario.user_query 2
       (Scenario.hier_registry, Scenario.hier_runtime)).1 = Ok names /\
    length names = Z.to_nat 2 /\
    forall name, name ∈ names -> name ∈ map fst Scenario.documented_groups.
Proof.
  apply (select_group_on_built Scenario.stub_embed 2 Scenario.documented_groups
           empty_runtime Scenario.hier_runtime Scenario.hier_runtime
           Scenario.hier_registry Scenario.user_query 2 stub_embed_dim
           scenario_hier_build).
  lia.
Defined.

(** X13. On a registry the hierarchical build left, with an embedding
    model of fixed dimension and [top_k >= 1], [select_tool] called on a
    group that has tools returns normally, with exactly [top_k] tools. *)
Theorem select_tool_on_built
  (embed : string -> vec) (dim : nat)
  (tool_groups : list (string * Hierarchical.group_info))
  (rt rt' rt1 : runtime) (g : Hierarchical.globals)
  (query group_name : string) (group_info : Hierarchical.group_info)
  (top_k : Z) :
  (forall text, length (embed text) = dim) ->
  Hierarchical.build embed tool_groups rt = (Ok g, rt') ->
  (group_name, group_info) ∈ tool_groups ->
  Hierarchical.tools group_info <> [] ->
  1 <= top_k ->
  exists selected,
    (Hierarchical.select_tool embed query group_name top_k (g, rt1)).1
      = Ok selected /\
    length selected = Z.to_nat top_k.
Proof.
  intros Hdim Hbuild Hin Htools Hk.
  apply hier_build_ok_inv in Hbuild as (Hne & ti & rt2 & Hti & ->).
  destruct (build_tool_indices_present _ _ _ _ _ _ Hti) as [_ Hnew].
  destruct (Hnew _ _ Hin Htools) as [info Hinfo].
  destruct (build_tool_indices_entries _ _ _ _ _ _ Hti _ _ Hinfo)
    as [H0|(gi & ds & _ & Hgi & Hf & Hlen & Hindex)].
  { by rewrite lookup_empty in H0. }
  rewrite hier_select_tool_eq. cbn [fst Hierarchical.tool_indices].
  rewrite Hinfo. cbn [fst].
  assert (Hds : ds <> []).
  { intros ->. simpl in Hlen. destruct (Hierarchical.tools gi); [done|discriminate]. }
  rewrite search_ok.
  2:{ rewrite renorm_length, Hdim, Hindex. simpl.
      destruct ds as [|text ds]; [done|]. simpl. by rewrite Hdim. }
  2:{ lia. }
  change (py_index [?x] 0) with (Ok x). cbv beta iota. cbn [fst].
  set (labels := knn_labels _ _ _).
  assert (Hrange : Forall (fun idx =>
            idx < Z.of_nat (length (Hierarchical.functions info))) labels).
  { apply Forall_forall. intros i Hi. apply knn_labels_range in Hi.
    rewrite Hindex in Hi. simpl in Hi. rewrite !length_map in Hi.
    rewrite Hf, <- Hlen. lia. }
  rewrite (filter_all _ _ Hrange).
  destruct (comprehension_returns (py_index (Hierarchical.functions info)) labels)
    as [selected Hsel].
  - apply Forall_forall. intros i Hi. apply py_index_returns.
    apply knn_labels_range in Hi.
    rewrite Hindex in Hi. simpl in Hi. rewrite !length_map in Hi.
    rewrite Hf, <- Hlen.
    assert (0 < length ds)%nat by (destruct ds; [done|simpl; lia]). lia.
  - exists selected. split; [exact Hsel|].
    apply comprehension_length in Hsel. rewrite Hsel.
    subst labels. apply knn_labels_length.
Qed.

Lemma select_tool_on_built_witness :
  exists selected,
    (Hierarchical.select_tool Scenario.stub_embed Scenario.user_query
       "Communication" 3 (Scenario.hier_registry, Scenario.hier_runtime)).1
      = Ok selected /\
    length selected = Z.to_nat 3.
Proof.
  apply (select_tool_on_built Scenario.stub_embed 2 Scenario.documented_groups
           empty_runtime Scenario.hier_runtime Scenario.hier_runtime
           Scenario.hier_registry Scenario.user_query "Communication"
           (Hierarchical.mkGroup
              "Tools that facilitate communication and messaging."
              [Hierarchical.send_slack_message])
           3 stub_embed_dim scenario_hier_build).
  - apply list_elem_of_further, list_elem_of_further, list_elem_of_here.
  - discriminate.
  - lia.
Defined.

(** *** Which exceptions the selection functions can end with *)

Lemma search_raises ix x k e : search ix x k = Raise e -> e = AssertionError.
Proof.
  unfold search. destruct (negb _); [by intros [= <-]|].
  destruct (negb _); [by intros [= <-]|discriminate].
Qed.

Lemma py_index_raises {A} (l : list A) i e :
  py_index l i = Raise e -> e = IndexError.
Proof.
  unfold py_index. destruct (_ && _); [|by intros [= <-]].
  destruct (l !! _); [discriminate|by intros [= <-]].
Qed.

Lemma comprehension_raises {A B} (f : A -> outcome B) xs e :
  comprehension f xs = Raise e -> exists x, x ∈ xs /\ f x = Raise e.
Proof.
  induction xs as [|x xs IH]; simpl; [discriminate|].
  destruct (f x) as [b|e'] eqn:Hx.
  - destruct (comprehension f xs) as [bs|e'']; [discriminate|].
    intros [= <-]. destruct (IH eq_refl) as [x' [Hin Hx']].
    exists x'. split; [by apply list_elem_of_further|exact Hx'].
  - intros [= <-]. exists x. split; [apply list_elem_of_here|exact Hx].
Qed.

Lemma selection_error_not_ValueError e :
  selection_error e -> isinstance_ValueError e = false.
Proof. by intros [->|[->|[key ->]]]. Qed.

Lemma select_group_raises embed query top_k st e :
  (Hierarchical.select_group embed query top_k st).1 = Raise e ->
  selection_error e.
Proof.
  rewrite select_group_eq. simpl.
  destruct (search _ _ _) as [[D I_]|e'] eqn:Hsearch.
  - destruct (py_index I_ 0) as [I0|e''] eqn:HI0.
    + intros Hc. apply comprehension_raises in Hc as [i [_ Hi]].
      apply py_index_raises in Hi as ->. right. by left.
    + intros [= <-]. apply py_index_raises in HI0 as ->. right. by left.
  - intros [= <-]. apply search_raises in Hsearch as ->. by left.
Qed.

Lemma hier_select_tool_raises embed query group_name top_k st e :
  (Hierarchical.select_tool embed query group_name top_k st).1 = Raise e ->
  selection_error e.
Proof.
  rewrite hier_select_tool_eq.
  destruct (Hierarchical.tool_indices st.1 !! group_name) as [info|]; simpl.
  - destruct (search _ _ _) as [[D I_]|e'] eqn:Hsearch.
    + destruct (py_index I_ 0) as [I0|e''] eqn:HI0.
      * intros Hc. apply comprehension_raises in Hc as [i [_ Hi]].
        apply py_index_raises in Hi as ->. right. by left.
      * intros [= <-]. apply py_index_raises in HI0 as ->. right. by left.
    + intros [= <-]. apply search_raises in Hsearch as ->. by left.
  - intros [= <-]. right. right. by eexists.
Qed.

Section HierarchicalDriverCases.

Variable embed : string -> vec.
Variable tool_invoke : Hierarchical.tool -> pyval -> outcome string.

(** What the driver does once a group and a tool are selected and the
    tool is one it recognises. *)
Lemma hier_main_selected query st g gs t ts args :
  (Hierarchical.select_group embed query 1 st).1 = Ok (g :: gs) ->
  (forall st', st'.1 = st.1 ->
     (Hierarchical.select_tool embed query g 1 st').1 = Ok (t :: ts)) ->
  Hierarchical.prepare_args t query = Some args ->
  let r := Hierarchical.main embed tool_invoke query st in
  invoked r.2.2 = invoked st.2 ++ [(Hierarchical.name t, PDict args)] /\
  r.1 = match tool_invoke t (PDict args) with
        | Ok _ => Ok tt
        | Raise e => if isinstance_ValueError e then Ok tt else Raise e
        end /\
  stdout r.2.2 =
    stdout st.2
    ++ ["Selected Skill Group: " +:+ g;
        "Selected Tool: " +:+ Hierarchical.name t]
    ++ match tool_invoke t (PDict args) with
       | Ok tool_result =>
           ["Tool '" +:+ Hierarchical.name t +:+ "' Result: " +:+ tool_result]
       | Raise e =>
           if isinstance_ValueError e then ["Error: " +:+ str_exn e] else []
       end.
Proof.
  intros Hgroup Htool Hargs r. remember r as r' eqn:Hr. subst r. symmetry in Hr.
  unfold Hierarchical.main, mbind at 1, M_bind at 1 in Hr.
  pose proof (select_group_frame embed query 1 st) as (Hg1 & _ & Hi1 & Ho1).
  destruct (Hierarchical.select_group embed query 1 st) as [o st1].
  simpl in Hgroup, Hg1, Hi1, Ho1. subst o.
  unfold mbind at 1, M_bind at 1 in Hr. unfold on_rt at 1, print at 1 in Hr.
  simpl in Hr. unfold mbind at 1, M_bind at 1 in Hr.
  match type of Hr with
  | context [Hierarchical.select_tool _ _ _ _ ?s] => set (st1' := s) in *
  end.
  pose proof (hier_select_tool_frame embed query g 1 st1') as (_ & _ & Hi2 & Ho2).
  specialize (Htool st1' Hg1).
  destruct (Hierarchical.select_tool embed query g 1 st1') as [o st2].
  simpl in Htool, Hi2, Ho2. subst o.
  unfold mbind at 1, M_bind at 1 in Hr. unfold on_rt at 1, print at 1 in Hr.
  simpl in Hr. rewrite Hargs in Hr.
  unfold try_except_ValueError, mbind, M_bind, on_rt, invoke_call, print in Hr.
  simpl in Hr.
  destruct (tool_invoke t (PDict args)) as [tool_result|e]; simpl in Hr.
  - subst r'. simpl. rewrite Hi2, Ho2, Hi1, Ho1, <- !app_assoc.
    split; [reflexivity|]. split; reflexivity.
  - destruct (isinstance_ValueError e); subst r'; simpl;
      rewrite Hi2, Ho2, Hi1, Ho1, <- ?app_assoc, ?app_nil_r;
      (split; [reflexivity|]; split; reflexivity).
Qed.

(** The driver either ends before any invocation, and then not with an
    exception that [except ValueError] would have caught, or it is in
    the situation of [hier_main_selected]. *)
Lemma hier_main_cases query st :
  let r := Hierarchical.main embed tool_invoke query st in
  (invoked r.2.2 = invoked st.2 /\
   forall e, r.1 = Raise e -> isinstance_ValueError e = false) \/
  (exists g gs t ts args,
     (Hierarchical.select_group embed query 1 st).1 = Ok (g :: gs) /\
     (forall st', st'.1 = st.1 ->
        (Hierarchical.select_tool embed query g 1 st').1 = Ok (t :: ts)) /\
     Hierarchical.prepare_args t query = Some args).
Proof.
  intros r. remember r as r' eqn:Hr. subst r. symmetry in Hr.
  unfold Hierarchical.main, mbind at 1, M_bind at 1 in Hr.
  pose proof (select_group_frame embed query 1 st) as (Hg1 & _ & Hi1 & _).
  pose proof (select_group_raises embed query 1 st) as He1.
  destruct (Hierarchical.select_group embed query 1 st)
    as [[[|selected_group rest]|e] st1] eqn:Hgroups; simpl in Hg1, Hi1, He1.
  - left. subst r'. simpl. split; [exact Hi1|discriminate].
  - unfold mbind at 1, M_bind at 1 in Hr. unfold on_rt at 1, print at 1 in Hr.
    simpl in Hr. unfold mbind at 1, M_bind at 1 in Hr.
    match type of Hr with
    | context [Hierarchical.select_tool _ _ _ _ ?s] => set (st1' := s) in *
    end.
    pose proof (hier_select_tool_frame embed query selected_group 1 st1')
      as (Hg2 & _ & Hi2 & _).
    pose proof (hier_select_tool_raises embed query selected_group 1 st1') as He2.
    destruct (Hierarchical.select_tool embed query selected_group 1 st1')
      as [[[|selected_tool others]|e] st2] eqn:Hsel; simpl in Hg2, Hi2, He2.
    + left. subst r'. simpl. split; [congruence|discriminate].
    + unfold mbind at 1, M_bind at 1 in Hr. unfold on_rt at 1, print at 1 in Hr.
      simpl in Hr.
      destruct (Hierarchical.prepare_args selected_tool query) as [args|] eqn:Hargs.
      * right. exists selected_group, rest, selected_tool, others, args.
        split; [reflexivity|]. split; [|exact Hargs].
        intros st' Hst'. rewrite hier_select_tool_eq, Hst', <- Hg1.
        rewrite hier_select_tool_eq in Hsel.
        change (st1'.1) with st1.1 in Hsel.
        destruct (Hierarchical.tool_indices st1.1 !! selected_group);
          [|discriminate].
        by injection Hsel as -> _.
      * left. subst r'. simpl. split; [congruence|discriminate].
    + left. subst r'. simpl. split; [congruence|].
      intros e' [= <-]. by apply selection_error_not_ValueError, He2.
  - left. subst r'. simpl. split; [exact Hi1|].
    intros e' [= <-]. by apply selection_error_not_ValueError, He1.
Qed.

End HierarchicalDriverCases.

Lemma prepare_args_recognised t query args :
  Hierarchical.prepare_args t query = Some args ->
  Hierarchical.name t ∈ ["query_wolfram_alpha"; "trigger_zapier_webhook";
                         "send_slack_message"].
Proof.
  unfold Hierarchical.prepare_args, Hierarchical.same_tool. simpl.
  destruct (String.eqb_spec (Hierarchical.name t) "query_wolfram_alpha") as [->|_];
    [set_solver|].
  destruct (String.eqb_spec (Hierarchical.name t) "trigger_zapier_webhook")
    as [->|_]; [set_solver|].
  destruct (String.eqb_spec (Hierarchical.name t) "send_slack_message") as [->|_];
    [set_solver|discriminate].
Qed.



Lemma scenario_empty_groups_main :
  (Hierarchical.main Scenario.stub_embed Scenario.tool_answers
     Scenario.user_query
     (Scenario.empty_groups_registry, Scenario.empty_groups_runtime)).1
  = Raise (KeyError "Computation").
Proof.
  unfold Hierarchical.main, mbind at 1, M_bind at 1.
  rewrite scenario_select_group by (reflexivity || lia).
  simpl. unfold mbind at 1, M_bind at 1, on_rt at 1, print at 1. simpl.
  unfold mbind at 1, M_bind at 1. by rewrite hier_select_tool_eq.
Qed.


(** *** The Zapier tool behind the driver *)

Lemma list_neq_app_singleton {A} (l : list A) (x : A) : l <> l ++ [x].
Proof.
  intros H. apply (f_equal length) in H. rewrite length_app in H. simpl in H. lia.
Qed.

(** The automation query on the scenario's registry: the group Automation
    is ranked first, and its one tool is selected. *)
Lemma scenario_automation_group rt :
  (Hierarchical.select_group Scenario.stub_embed Cases.automation_query 1
     (Scenario.hier_registry, rt)).1 = Ok ["Automation"].
Proof.
  rewrite select_group_eq.
  change (Scenario.stub_embed Cases.automation_query) with [0; 1]%R.
  rewrite renorm_e2.
  change (Hierarchical.group_index (Scenario.hier_registry, rt).1)
    with (mkIndex 2 (map fvec_renorm_L2 Scenario.group_vectors)).
  change (Hierarchical.group_names (Scenario.hier_registry, rt).1)
    with ["Computation"; "Automation"; "Communication"].
  rewrite scenario_group_vectors.
  rewrite search_ok by (reflexivity || lia).
  unfold Scenario.group_vectors. simpl xb.
  assert (Hrank : rank [[1; 0]; [0; 1]; [-1; 0]]%R [0; 1]%R =
            [(1%nat, fvec_L2sqr [0; 1]%R [0; 1]%R);
             (0%nat, fvec_L2sqr [0; 1]%R [1; 0]%R);
             (2%nat, fvec_L2sqr [0; 1]%R [-1; 0]%R)]) by rank_numeric.
  unfold knn_labels, knn_hits. rewrite Hrank. reflexivity.
Qed.

Lemma scenario_automation_tool st :
  st.1 = Scenario.hier_registry ->
  (Hierarchical.select_tool Scenario.stub_embed Cases.automation_query
     "Automation" 1 st).1 = Ok [Hierarchical.trigger_zapier_webhook].
Proof.
  intros Hst. rewrite hier_select_tool_eq, Hst.
  change (Hierarchical.tool_indices Scenario.hier_registry !! "Automation")
    with (Some (Scenario.one_tool_entry Hierarchical.trigger_zapier_webhook
                  [0; 1]%R 2%nat)).
  change (Scenario.stub_embed Cases.automation_query) with [0; 1]%R.
  unfold Scenario.one_tool_entry. simpl map. rewrite renorm_e2.
  rewrite search_ok by (reflexivity || lia).
  simpl xb. change (Z.to_nat 1) with 1%nat. rewrite scenario_single_labels.
  reflexivity.
Qed.


Lemma scenario_automation_invoked :
  let r := Hierarchical.main Scenario.stub_embed
             (fun _ => Tools.invoke_zapier Cases.zapier_down)
             Cases.automation_query
             (Scenario.hier_registry, Scenario.hier_runtime) in
  invoked r.2.2 =
    invoked Scenario.hier_runtime
    ++ [("trigger_zapier_webhook",
         PDict [("zap_id", PStr "123456");
                ("payload", PDict [("message", PStr Cases.automation_query)])])].
Proof.
  intros r.
  by destruct (hier_main_selected Scenario.stub_embed
                 (fun _ => Tools.invoke_zapier Cases.zapier_down)
                 Cases.automation_query
                 (Scenario.hier_registry, Scenario.hier_runtime)
                 "Automation" [] Hierarchical.trigger_zapier_webhook []
                 [("zap_id", PStr "123456");
                  ("payload", PDict [("message", PStr Cases.automation_query)])]
                 (scenario_automation_group _) scenario_automation_tool eq_refl)
    as (Hinv & _).
Qed.


(** ** More on the calculator notebook *)

Section CalcLoop.

Variable llm_with_tools :
  list Langchain.message -> string * list Langchain.tool_call.
Variable tool_invoke : Calc.calc_tool -> Langchain.tool_call -> outcome string.
Variable repr : pyval -> string.

(** A call resolves only to the tool that has its lower-cased name. *)
Lemma resolve_name call_name t :
  Calc.resolve call_name = Ok t -> Calc.tool_name t = lower call_name.
Proof.
  unfold Calc.resolve. rewrite dispatch_table_lookup.
  repeat case_decide; intros [= <-]; by subst.
Qed.

Lemma calc_steps_done_nil st : calc_steps_done repr [] [] st = st.
Proof.
  destruct st as [messages [nd ec inv out]].
  unfold calc_steps_done; simpl. by rewrite !app_nil_r.
Qed.

Lemma calc_steps_done_cons tc calls content contents st :
  calc_steps_done repr (tc :: calls) (content :: contents) st =
  calc_steps_done repr calls contents (calc_steps_done repr [tc] [content] st).
Proof. unfold calc_steps_done; simpl. by rewrite <- !app_assoc. Qed.

Lemma calc_step_ok tc content st :
  calc_call_returns tool_invoke tc content ->
  Calc.dispatch_step tool_invoke repr tc st
  = (Ok tt, calc_steps_done repr [tc] [content] st).
Proof.
  intros (t & Hres & Hinv). destruct st as [messages rt].
  unfold Calc.dispatch_step, calc_steps_done, mbind, M_bind, lift, on_rt,
    invoke_call, print, Langchain.append_message, modify; simpl.
  rewrite Hres. simpl. rewrite Hinv. simpl.
  by rewrite (resolve_name _ _ Hres).
Qed.

Lemma calc_step_raise tc e st :
  calc_call_raises tool_invoke tc e ->
  exists st',
    Calc.dispatch_step tool_invoke repr tc st = (Raise e, st') /\
    st'.1 = st.1 /\ stdout st'.2 = stdout st.2 /\
    invoked st'.2 =
      invoked st.2
      ++ match Calc.resolve (Langchain.name tc) with
         | Ok _ => [(lower (Langchain.name tc), Langchain.args tc)]
         | Raise _ => []
         end.
Proof.
  intros [Hres|(t & Hres & Hinv)]; destruct st as [messages rt];
    unfold Calc.dispatch_step, mbind, M_bind, lift, on_rt, invoke_call; simpl;
    rewrite Hres; simpl.
  - eexists. split; [reflexivity|]. simpl. by rewrite app_nil_r.
  - rewrite Hinv. eexists. split; [reflexivity|]. simpl.
    by rewrite (resolve_name _ _ Hres).
Qed.

(** The loop over calls that all return. *)
Lemma calc_loop_ok calls contents st :
  Forall2 (calc_call_returns tool_invoke) calls contents ->
  for_each calls (Calc.dispatch_step tool_invoke repr) st
  = (Ok tt, calc_steps_done repr calls contents st).
Proof.
  intros Hall. revert st.
  induction Hall as [|tc content calls contents Htc _ IH]; intros st.
  - by rewrite calc_steps_done_nil.
  - simpl. unfold mbind at 1, M_bind at 1.
    rewrite (calc_step_ok _ _ _ Htc),
      (calc_steps_done_cons tc calls content contents st). apply IH.
Qed.

(** The loop up to the first call whose step raises. *)
Lemma calc_loop_raise done contents tc rest e st :
  Forall2 (calc_call_returns tool_invoke) done contents ->
  calc_call_raises tool_invoke tc e ->
  exists st',
    for_each (done ++ tc :: rest) (Calc.dispatch_step tool_invoke repr) st
      = (Raise e, st') /\
    st'.1 = (calc_steps_done repr done contents st).1 /\
    stdout st'.2 = stdout (calc_steps_done repr done contents st).2 /\
    invoked st'.2 =
      invoked (calc_steps_done repr done contents st).2
      ++ match Calc.resolve (Langchain.name tc) with
         | Ok _ => [(lower (Langchain.name tc), Langchain.args tc)]
         | Raise _ => []
         end.
Proof.
  intros Hall Htc. revert st.
  induction Hall as [|tc' content done contents Htc' _ IH]; intros st.
  - rewrite calc_steps_done_nil. simpl. unfold mbind at 1, M_bind at 1.
    destruct (calc_step_raise tc e st Htc) as (st' & -> & Hrest).
    by exists st'.
  - rewrite (calc_steps_done_cons tc' done content contents st).
    cbn [app for_each]. unfold mbind at 1, M_bind at 1.
    rewrite (calc_step_ok _ _ _ Htc'). apply IH.
Qed.

(** The driver around the loop. *)
Lemma calc_main_eq query st :
  Calc.main llm_with_tools tool_invoke repr query st =
  let ai_msg := llm_with_tools [Langchain.HumanMessage query] in
  let st1 := ([Langchain.HumanMessage query;
               Langchain.AIMessage ai_msg.1 ai_msg.2], st.2) in
  match for_each ai_msg.2 (Calc.dispatch_step tool_invoke repr) st1 with
  | (Ok _, st2) => on_rt (print (llm_with_tools st2.1).1) st2
  | (Raise e, st2) => (Raise e, st2)
  end.
Proof.
  destruct st as [messages rt].
  unfold Calc.main, mbind, M_bind, modify, get, Langchain.append_message; simpl.
  destruct (for_each _ _ _) as [[[]|e] st2]; reflexivity.
Qed.

End CalcLoop.

(** X17. A run of the calculator notebook (cells 4, 5, 7, 8) in which
    every tool call resolves and its invocation returns: the run ends
    normally; the transcript is the question, the model's message and
    one tool message per call, in call order, each under the lower-cased
    name of its call and carrying the call's id; one line is printed per
    call; and the final answer printed is the model's reply to exactly
    that transcript. *)
Theorem calc_run_answers_every_call
  (llm_with_tools : list Langchain.message -> string * list Langchain.tool_call)
  (tool_invoke : Calc.calc_tool -> Langchain.tool_call -> outcome string)
  (repr : pyval -> string) (query : string)
  (st : list Langchain.message * runtime) (contents : list string) :
  let ai_msg := llm_with_tools [Langchain.HumanMessage query] in
  Forall2 (calc_call_returns tool_invoke) ai_msg.2 contents ->
  let transcript :=
    [Langchain.HumanMessage query; Langchain.AIMessage ai_msg.1 ai_msg.2]
    ++ zip_with (fun tc content =>
                   Langchain.ToolMessage (lower (Langchain.name tc)) content
                     (Langchain.id tc)) ai_msg.2 contents in
  let r := Calc.main llm_with_tools tool_invoke repr query st in
  r.1 = Ok tt /\
  r.2.1 = transcript /\
  invoked r.2.2 =
    invoked st.2
    ++ map (fun tc => (lower (Langchain.name tc), Langchain.args tc)) ai_msg.2 /\
  stdout r.2.2 =
    stdout st.2
    ++ zip_with (fun tc content =>
                   lower (Langchain.name tc) +:+ " "
                   +:+ repr (Langchain.args tc) +:+ " " +:+ content)
         ai_msg.2 contents
    ++ [(llm_with_tools transcript).1].
Proof.
  intros ai_msg Hall transcript r. subst r.
  rewrite calc_main_eq. cbv zeta. fold ai_msg.
  rewrite (calc_loop_ok tool_invoke repr _ _ _ Hall).
  unfold on_rt, print, calc_steps_done. simpl.
  split; [reflexivity|]. split; [reflexivity|]. split; [reflexivity|].
  by rewrite <- app_assoc.
Qed.

Lemma calc_run_answers_every_call_witness :
  let r := Calc.main Cases.llm_product_and_sum Cases.recorded_results
             Scenario.repr_stub "What is 393 * 12.25? Also, what is 11 + 49?"
             ([], empty_runtime) in
  r.1 = Ok tt /\
  r.2.1 =
    [Langchain.HumanMessage "What is 393 * 12.25? Also, what is 11 + 49?";
     Langchain.AIMessage EmptyString Cases.product_and_sum;
     Langchain.ToolMessage "multiply" "4814.25" "call_1";
     Langchain.ToolMessage "add" "60.0" "call_2"] /\
  invoked r.2.2 =
    [("multiply", PDict [("x", PInt 393); ("y", PFloat 12.25)]);
     ("add", PDict [("x", PInt 11); ("y", PInt 49)])] /\
  stdout r.2.2 =
    ["multiply <value> 4814.25"; "add <value> 60.0";
     "The product is 4814.25 and the sum is 60."].
Proof.
  apply (calc_run_answers_every_call Cases.llm_product_and_sum
           Cases.recorded_results Scenario.repr_stub
           "What is 393 * 12.25? Also, what is 11 + 49?" ([], empty_runtime)
           ["4814.25"; "60.0"]).
  repeat constructor.
  - by exists Calc.multiply.
  - by exists Calc.add.
Defined.

(** X18. A run of the calculator notebook whose tool calls succeed up to
    one whose step raises, because no tool has its lower-cased name or
    because the invocation raises: the run ends with that exception; the
    tool messages and printed lines of the earlier calls are kept; the
    failing call is recorded as invoked only if it resolved; the calls
    after it are not invoked, and the model is not asked for a final
    answer. *)
Theorem calc_run_stops_at_first_failure
  (llm_with_tools : list Langchain.message -> string * list Langchain.tool_call)
  (tool_invoke : Calc.calc_tool -> Langchain.tool_call -> outcome string)
  (repr : pyval -> string) (query : string)
  (st : list Langchain.message * runtime)
  (done : list Langchain.tool_call) (contents : list string)
  (tc : Langchain.tool_call) (rest : list Langchain.tool_call) (e : pyexn) :
  let ai_msg := llm_with_tools [Langchain.HumanMessage query] in
  ai_msg.2 = done ++ tc :: rest ->
  Forall2 (calc_call_returns tool_invoke) done contents ->
  calc_call_raises tool_invoke tc e ->
  let r := Calc.main llm_with_tools tool_invoke repr query st in
  r.1 = Raise e /\
  r.2.1 =
    [Langchain.HumanMessage query; Langchain.AIMessage ai_msg.1 ai_msg.2]
    ++ zip_with (fun tc content =>
                   Langchain.ToolMessage (lower (Langchain.name tc)) content
                     (Langchain.id tc)) done contents /\
  stdout r.2.2 =
    stdout st.2
    ++ zip_with (fun tc content =>
                   lower (Langchain.name tc) +:+ " "
                   +:+ repr (Langchain.args tc) +:+ " " +:+ content)
         done contents /\
  invoked r.2.2 =
    invoked st.2
    ++ map (fun tc => (lower (Langchain.name tc), Langchain.args tc)) done
    ++ match Calc.resolve (Langchain.name tc) with
       | Ok _ => [(lower (Langchain.name tc), Langchain.args tc)]
       | Raise _ => []
       end.
Proof.
  intros ai_msg Hcalls Hall Htc r. subst r.
  rewrite calc_main_eq. cbv zeta. fold ai_msg. rewrite Hcalls.
  destruct (calc_loop_raise tool_invoke repr done contents tc rest e
              ([Langchain.HumanMessage query;
                Langchain.AIMessage ai_msg.1 (done ++ tc :: rest)], st.2)
              Hall Htc) as (st' & -> & Hmsgs & Hout & Hinv).
  cbn [fst snd]. split; [reflexivity|]. split; [exact Hmsgs|].
  split; [exact Hout|]. rewrite Hinv. unfold calc_steps_done. simpl.
  by rewrite <- app_assoc.
Qed.

Lemma calc_run_stops_at_first_failure_witness :
  let r := Calc.main Cases.llm_product_then_divide Cases.recorded_results
             Scenario.repr_stub "What is 393 * 12.25 / 7, plus 60?"
             ([], empty_runtime) in
  r.1 = Raise (KeyError "divide") /\
  r.2.1 =
    [Langchain.HumanMessage "What is 393 * 12.25 / 7, plus 60?";
     Langchain.AIMessage EmptyString
       (Cases.llm_product_then_divide
          [Langchain.HumanMessage "What is 393 * 12.25 / 7, plus 60?"]).2;
     Langchain.ToolMessage "multiply" "4814.25" "call_1"] /\
  stdout r.2.2 = ["multiply <value> 4814.25"] /\
  invoked r.2.2 = [("multiply", PDict [("x", PInt 393); ("y", PFloat 12.25)])].
Proof.
  apply (calc_run_stops_at_first_failure Cases.llm_product_then_divide
           Cases.recorded_results Scenario.repr_stub
           "What is 393 * 12.25 / 7, plus 60?" ([], empty_runtime)
           [Langchain.mkToolCall "Multiply"
              (PDict [("x", PInt 393); ("y", PFloat 12.25)]) "call_1"]
           ["4814.25"] Scenario.divide_call
           [Langchain.mkToolCall "add" (PDict [("x", PInt 11); ("y", PInt 49)])
              "call_3"]
           (KeyError "divide")).
  - reflexivity.
  - repeat constructor. by exists Calc.multiply.
  - by left.
Defined.
